(** * mgdx-scrapper: the page-extraction and response-shaping pipeline

    A shallow embedding of [src/index.js]: the three in-page extraction
    callbacks ([searchManga], [scrapeMangaDetails], [getChapterData]), the
    identifier patterns they apply to hrefs, the browser-session scoping of
    the three pipeline functions and the three Express route handlers.

    Strings are JavaScript strings: sequences of UTF-16 code units. *)

From Stdlib Require Import NArith String Ascii List Lia.
From stdpp Require Import base option list.

#[local] Set Warnings "-register-all".

(** ** Strings *)

Definition str := list N.

(** A source literal, written in ASCII, as a sequence of code units. *)
Definition u (s : string) : str := map N_of_ascii (list_ascii_of_string s).
Arguments u s%_string.

Fixpoint str_eqb (a b : str) : bool :=
  match a, b with
  | [], [] => true
  | x :: a', y :: b' => (x =? y)%N && str_eqb a' b'
  | _, _ => false
  end.

Fixpoint starts_with (p s : str) : bool :=
  match p, s with
  | [], _ => true
  | x :: p', y :: s' => (x =? y)%N && starts_with p' s'
  | _ :: _, [] => false
  end.

(** ECMAScript LineTerminator: LF, CR, LS, PS. *)
Definition is_line_terminator (c : N) : bool :=
  ((c =? 0x0A) || (c =? 0x0D) || (c =? 0x2028) || (c =? 0x2029))%N.

(** ECMAScript WhiteSpace: TAB, VT, FF, ZWNBSP and the Unicode space
    separators. *)
Definition is_white_space (c : N) : bool :=
  ((c =? 0x09) || (c =? 0x0B) || (c =? 0x0C) || (c =? 0x20) || (c =? 0xA0)
   || (c =? 0x1680) || ((0x2000 <=? c) && (c <=? 0x200A))
   || (c =? 0x202F) || (c =? 0x205F) || (c =? 0x3000) || (c =? 0xFEFF))%N.

Definition is_trimmable (c : N) : bool :=
  is_white_space c || is_line_terminator c.

Fixpoint trim_start (s : str) : str :=
  match s with
  | [] => []
  | c :: s' => if is_trimmable c then trim_start s' else s
  end.

(** [String.prototype.trim]. *)
Definition trim (s : str) : str := rev (trim_start (rev (trim_start s))).

(** [a || b] on a possibly missing string: [undefined], [null] and the empty
    string are falsy. *)
Definition or_else (a : option str) (b : str) : str :=
  match a with
  | Some (c :: s) => c :: s
  | _ => b
  end.

(** [a || null]. *)
Definition or_null (a : option str) : option str :=
  match a with
  | Some (c :: s) => Some (c :: s)
  | _ => None
  end.

(** ** Regular expressions

    The two patterns of the program, [/title\/(.*?)\/?$/] and
    [/chapter\/(.*?)\/?$/], have the shape [before(inside)after] with one
    capture group; the pieces they are made of are literals, a lazily
    starred character class, a greedy optional character class and the
    end-of-input assertion.  Matching is the backtracking search of the
    ECMAScript specification, with the rest of the pattern as a
    continuation. *)

Inductive char_class :=
| AnyChar            (* [.] without the s flag: anything but a line terminator *)
| Char (c : N).

Definition in_class (k : char_class) (c : N) : bool :=
  match k with
  | AnyChar => negb (is_line_terminator c)
  | Char d => (c =? d)%N
  end.

Inductive piece :=
| Lit (l : str)
| LazyStar (k : char_class)   (* k*? *)
| Opt (k : char_class)        (* k?  *)
| EndOfInput.                 (* $, no m flag *)

Record pattern := {
  before : list piece;
  inside : list piece;   (* capture group 1 *)
  after : list piece
}.

Section Matcher.
Context {A : Type}.

(** [k*?]: first try the continuation with nothing consumed, then with
    one more character of the class. *)
Fixpoint lazy_star (k : char_class) (s : str) (cont : str → option A) : option A :=
  match cont s with
  | Some r => Some r
  | None =>
      match s with
      | c :: s' => if in_class k c then lazy_star k s' cont else None
      | [] => None
      end
  end.

Definition match_piece (p : piece) (s : str) (cont : str → option A) : option A :=
  match p with
  | Lit l => if starts_with l s then cont (drop (length l) s) else None
  | LazyStar k => lazy_star k s cont
  | Opt k =>
      match s with
      | c :: s' =>
          if in_class k c
          then match cont s' with Some r => Some r | None => cont s end
          else cont s
      | [] => cont s
      end
  | EndOfInput => match s with [] => cont [] | _ :: _ => None end
  end.

Fixpoint match_pieces (ps : list piece) (s : str) (cont : str → option A) : option A :=
  match ps with
  | [] => cont s
  | p :: ps' => match_piece p s (λ s', match_pieces ps' s' cont)
  end.
End Matcher.

(** A match attempt anchored at the start of [s]; the result is the text
    of capture group 1. *)
Definition match_at (re : pattern) (s : str) : option str :=
  match_pieces (before re) s (λ s1,
    match_pieces (inside re) s1 (λ s2,
      match_pieces (after re) s2 (λ _,
        Some (take (length s1 - length s2) s1)))).

(** [s.match(re)] for a pattern without the g flag: the leftmost start
    position at which an attempt succeeds; [None] is [null], [Some id] is a
    match array whose element 1 is [id]. *)
Fixpoint str_match (re : pattern) (s : str) : option str :=
  match match_at re s with
  | Some g => Some g
  | None =>
      match s with
      | [] => None
      | _ :: s' => str_match re s'
      end
  end.

(** [/<segment>\/(.*?)\/?$/] *)
Definition id_pattern (segment : string) : pattern :=
  {| before := [Lit (u segment ++ u "/")];
     inside := [LazyStar AnyChar];
     after := [Opt (Char 0x2F%N); EndOfInput] |}.

Definition title_re : pattern := id_pattern "title".
Definition chapter_re : pattern := id_pattern "chapter".

(** ** The rendered DOM

    An element has a local name, attributes in source order and child
    nodes, each a text node or an element. *)

Inductive element :=
| Element (tag : str) (attrs : list (str * str)) (children : list node)
with node :=
| TextNode (data : str)
| ElementNode (e : element).

Definition document := element.   (* the document element *)

Definition tagName (e : element) : str := let 'Element t _ _ := e in t.
Definition attributes (e : element) : list (str * str) := let 'Element _ a _ := e in a.

(** [el.getAttribute(name)]; [None] is [null]. *)
Definition getAttribute (name : str) (e : element) : option str :=
  snd <$> find (λ kv, str_eqb (fst kv) name) (attributes e).

(** [el.textContent]: the text of all descendant text nodes, in order. *)
Fixpoint textContent (e : element) : str :=
  let 'Element _ _ children := e in
  flat_map (λ c, match c with TextNode data => data | ElementNode e' => textContent e' end) children.

(** The descendant elements of [e] in document order, [e] excluded. *)
Fixpoint descendants (e : element) : list element :=
  let 'Element _ _ children := e in
  flat_map (λ c, match c with TextNode _ => [] | ElementNode e' => e' :: descendants e' end) children.

(** The tokens of a [class] attribute, split at ASCII whitespace. *)
Definition is_ascii_whitespace (c : N) : bool :=
  ((c =? 0x09) || (c =? 0x0A) || (c =? 0x0C) || (c =? 0x0D) || (c =? 0x20))%N.

Fixpoint tokens_from (cur : str) (s : str) : list str :=
  match s with
  | [] => match cur with [] => [] | _ :: _ => [rev cur] end
  | c :: s' =>
      if is_ascii_whitespace c
      then match cur with [] => tokens_from [] s' | _ :: _ => rev cur :: tokens_from [] s' end
      else tokens_from (c :: cur) s'
  end.

Definition classList (e : element) : list str :=
  match getAttribute (u "class") e with
  | Some v => tokens_from [] v
  | None => []
  end.

(** The two selector forms the program uses: [.name] and a type selector.
    Class names are compared exactly, as in a document in no-quirks mode. *)
Inductive selector :=
| ByClass (name : str)
| ByTag (name : str).

Definition parse_selector (s : str) : selector :=
  match s with
  | 0x2E%N :: name => ByClass name
  | _ => ByTag s
  end.

Definition matches (sel : selector) (e : element) : bool :=
  match sel with
  | ByClass name => existsb (str_eqb name) (classList e)
  | ByTag name => str_eqb name (tagName e)
  end.

(** [el.querySelectorAll(sel)] and [el.querySelector(sel)]. *)
Definition querySelectorAll (sel : str) (e : element) : list element :=
  filter (λ d, matches (parse_selector sel) d = true) (descendants e).

Definition querySelector (sel : str) (e : element) : option element :=
  head (querySelectorAll sel e).

(** [document.querySelectorAll(sel)] and [document.querySelector(sel)]: the
    document element is itself a candidate. *)
Definition document_querySelectorAll (sel : str) (d : document) : list element :=
  filter (λ e, matches (parse_selector sel) e = true) (d :: descendants d).

Definition document_querySelector (sel : str) (d : document) : option element :=
  head (document_querySelectorAll sel d).

(** ** JSON values and the output records *)

Inductive json :=
| JNull
| JString (s : str)
| JNumber (n : nat)
| JArray (items : list json)
| JObject (members : list (str * json)).

(** A field that is a string or [null]. *)
Definition nullable (v : option str) : json :=
  match v with
  | Some s => JString s
  | None => JNull
  end.

Module SearchResult.
Record t := {
  title : str;
  manga_id : str;
  image : option str;
  latest_chapter : str;
  rating : str
}.
Definition to_json (r : t) : json :=
  JObject [(u "title", JString (title r));
           (u "manga_id", JString (manga_id r));
           (u "image", nullable (image r));
           (u "latest_chapter", JString (latest_chapter r));
           (u "rating", JString (rating r))].
End SearchResult.

Module ChapterImage.
Record t := {
  pageNumber : nat;
  imageUrl : option str
}.
Definition to_json (i : t) : json :=
  JObject [(u "pageNumber", JNumber (pageNumber i));
           (u "imageUrl", nullable (imageUrl i))].
End ChapterImage.

Module ChapterData.
Record t := {
  title : str;
  images : list ChapterImage.t;
  prev_chapter : option str;
  next_chapter : option str
}.
Definition to_json (c : t) : json :=
  JObject [(u "title", JString (title c));
           (u "images", JArray (map ChapterImage.to_json (images c)));
           (u "prev_chapter", nullable (prev_chapter c));
           (u "next_chapter", nullable (next_chapter c))].
End ChapterData.

Module Chapter.
Record t := {
  number : str;
  title : str;
  uploadDate : str;
  url : str
}.
Definition to_json (c : t) : json :=
  JObject [(u "number", JString (number c));
           (u "title", JString (title c));
           (u "uploadDate", JString (uploadDate c));
           (u "url", JString (url c))].
End Chapter.

Module MangaDetail.
Record t := {
  title : str;
  image : option str;
  description : str;
  author : str;
  genres : list str;
  rating : str;
  chapters : list Chapter.t
}.
Definition to_json (m : t) : json :=
  JObject [(u "title", JString (title m));
           (u "image", nullable (image m));
           (u "description", JString (description m));
           (u "author", JString (author m));
           (u "genres", JArray (map JString (genres m)));
           (u "rating", JString (rating m));
           (u "chapters", JArray (map Chapter.to_json (chapters m)))].
End MangaDetail.

(** ** The in-page extraction callbacks *)

(** [node?.textContent?.trim()] *)
Definition trimmed_text (e : option element) : option str :=
  trim <$> (textContent <$> e).

(** [node?.getAttribute(name)] *)
Definition attribute_of (name : str) (e : option element) : option str :=
  e ≫= getAttribute name.

(** The callback of [scrapeMangaDetails]: one [.chapter-item]. *)
Definition scrapeMangaDetails_chapter (el : element) : Chapter.t :=
  {| Chapter.number :=
       or_else (trimmed_text (querySelector (u ".chapter-number") el)) (u "Unknown");
     Chapter.title :=
       or_else (trimmed_text (querySelector (u ".chapter-title") el)) (u "No title");
     Chapter.uploadDate :=
       or_else (trimmed_text (querySelector (u ".upload-date") el)) (u "Unknown date");
     Chapter.url :=
       or_else (attribute_of (u "href") (querySelector (u "a") el)) (u "#") |}.

(** The callback [scrapeMangaDetails] evaluates in the page. *)
Definition scrapeMangaDetails_evaluate (doc : document) : MangaDetail.t :=
  let title :=
    or_else (trimmed_text (document_querySelector (u ".manga-title") doc)) (u "Unknown Title") in
  let description :=
    or_else (trimmed_text (document_querySelector (u ".manga-description") doc))
            (u "No description available") in
  let author :=
    or_else (trimmed_text (document_querySelector (u ".author-name") doc)) (u "Unknown Author") in
  let genreElements := document_querySelectorAll (u ".genre-tag") doc in
  let genres := map (λ el, trim (textContent el)) genreElements in
  let rating :=
    or_else (trimmed_text (document_querySelector (u ".rating-value") doc)) (u "No rating") in
  let coverImage :=
    or_null (attribute_of (u "src") (document_querySelector (u ".cover-image") doc)) in
  let chapterElements := document_querySelectorAll (u ".chapter-item") doc in
  let chapters := map scrapeMangaDetails_chapter chapterElements in
  {| MangaDetail.title := title;
     MangaDetail.image := coverImage;
     MangaDetail.description := description;
     MangaDetail.author := author;
     MangaDetail.genres := genres;
     MangaDetail.rating := rating;
     MangaDetail.chapters := chapters |}.

(** [let mangaId = ''; m = url.match(title_re); if (m) mangaId = m[1]] *)
Definition searchManga_id (url : str) : str :=
  match str_match title_re url with
  | Some id => id
  | None => u ""
  end.

(** The callback of [searchManga]: one [.manga-card]. *)
Definition searchManga_card (el : element) : SearchResult.t :=
  let title :=
    or_else (trimmed_text (querySelector (u ".manga-title") el)) (u "Unknown Title") in
  let url := or_else (attribute_of (u "href") (querySelector (u "a") el)) (u "#") in
  let thumbnail := or_null (attribute_of (u "src") (querySelector (u ".thumbnail") el)) in
  let latestChapter := or_else (trimmed_text (querySelector (u ".latest-chapter") el)) (u "") in
  let rating := or_else (trimmed_text (querySelector (u ".rating") el)) (u "") in
  let mangaId := searchManga_id url in
  {| SearchResult.title := title;
     SearchResult.manga_id := mangaId;
     SearchResult.image := thumbnail;
     SearchResult.latest_chapter := latestChapter;
     SearchResult.rating := rating |}.

(** The callback [searchManga] evaluates in the page. *)
Definition searchManga_evaluate (doc : document) : list SearchResult.t :=
  let resultElements := document_querySelectorAll (u ".manga-card") doc in
  map searchManga_card resultElements.

(** The callback of [getChapterData]: one [.page-image] at position
    [index]. *)
Definition getChapterData_image (index : nat) (el : element) : ChapterImage.t :=
  {| ChapterImage.pageNumber := index + 1;
     ChapterImage.imageUrl :=
       match or_null (getAttribute (u "src") el) with
       | Some src => Some src
       | None => or_null (getAttribute (u "data-src") el)
       end |}.

(** [if (link) { m = link.match(chapter_re); if (m) id = m[1] }], the
    identifier staying [null] otherwise. *)
Definition getChapterData_link (link : option str) : option str :=
  match or_null link with
  | Some href => str_match chapter_re href
  | None => None
  end.

(** The callback [getChapterData] evaluates in the page. *)
Definition getChapterData_evaluate (doc : document) : ChapterData.t :=
  let title :=
    or_else (trimmed_text (document_querySelector (u ".chapter-title") doc)) (u "Unknown Chapter") in
  let imageElements := document_querySelectorAll (u ".page-image") doc in
  let images := imap getChapterData_image imageElements in
  let prevLink := attribute_of (u "href") (document_querySelector (u ".prev-chapter") doc) in
  let nextLink := attribute_of (u "href") (document_querySelector (u ".next-chapter") doc) in
  let prevChapter := getChapterData_link prevLink in
  let nextChapter := getChapterData_link nextLink in
  {| ChapterData.title := title;
     ChapterData.images := images;
     ChapterData.prev_chapter := prevChapter;
     ChapterData.next_chapter := nextChapter |}.

(** ** Effects: the browser engine, the console and thrown errors

    A computation yields the calls it made, in order, and either a thrown
    error (its message) or a value. *)

Inductive event :=
| Delay (ms : N)
| Launch (executablePath : option str)
| NewPage
| SetViewport (width height : nat)
| SetUserAgent (ua : str)
| Goto (url : str) (timeout : N)
| WaitForSelector (sel : str) (timeout : N)
| Evaluate
| Close
| ConsoleError (label message : str).

Definition M (A : Type) : Type := list event * (str + A).

Definition throw {A} (message : str) : M A := ([], inl message).

Definition call {A} (ev : event) (outcome : str + A) : M A := ([ev], outcome).

#[export] Instance M_ret : MRet M := λ A a, ([], inr a).

#[export] Instance M_bind : MBind M := λ A B f m,
  match m with
  | (t, inl e) => (t, inl e)
  | (t, inr a) => let '(t', r) := f a in (t ++ t', r)
  end.

(** [try { body } catch (error) { handler }] *)
Definition try_catch {A} (body : M A) (handler : str → M A) : M A :=
  match body with
  | (t, inl error) => let '(t', r) := handler error in (t ++ t', r)
  | (t, inr a) => (t, inr a)
  end.

(** [try { body } catch (error) { handler } finally { finalizer }]: the
    finalizer runs on every exit, and an error it throws replaces the
    outcome. *)
Definition try_catch_finally {A} (body : M A) (handler : str → M A)
    (finalizer : M unit) : M A :=
  let '(t, r) := try_catch body handler in
  match finalizer with
  | (t', inl error) => (t ++ t', inl error)
  | (t', inr _) => (t ++ t', r)
  end.

(** The browser automation engine and the upstream site, as one request
    sees them.  A navigation either fails or settles on a document, which
    then no longer changes; a fault is the message of the error thrown. *)
Record engine := {
  launch_fault : option str;
  newPage_fault : option str;
  setViewport_fault : option str;
  setUserAgent_fault : option str;
  goto_result : str → str + document;
  selector_timeout : str → str;
  evaluate_fault : option str;
  close_fault : option str
}.

Record process_env := {
  NODE_ENV : option str;
  CHROME_PATH : option str
}.

(** [encodeURIComponent] and [decodeURIComponent]; [None] is a thrown
    [URIError]. *)
Class UriCodec := {
  encodeURIComponent : str → option str;
  decodeURIComponent : str → option str
}.

(** The two built-ins as ECMA-262 defines them.

    [Decode] with the empty reserved set of [decodeURIComponent]: an
    escape below [%80] is its character; a lead octet must be followed by
    its continuation escapes and form the shortest UTF-8 encoding of a code
    point that is no surrogate; anything else throws. *)

Definition hex_value (c : N) : option N :=
  if ((48 <=? c) && (c <=? 57))%N then Some (c - 48)%N
  else if ((65 <=? c) && (c <=? 70))%N then Some (c - 55)%N
  else if ((97 <=? c) && (c <=? 102))%N then Some (c - 87)%N
  else None.

(** The octet written by the two hexadecimal digits [h] and [l]. *)
Definition hex_octet (h l : N) : option N :=
  match hex_value h, hex_value l with
  | Some a, Some b => Some (16 * a + b)%N
  | _, _ => None
  end.

(** A continuation octet [%XY] of a UTF-8 sequence: its six payload bits. *)
Definition continuation (p h l : N) : option N :=
  if (p =? 37)%N
  then match hex_octet h l with
       | Some b => if ((0x80 <=? b) && (b <=? 0xBF))%N then Some (b - 0x80)%N else None
       | None => None
       end
  else None.

Definition utf16 (cp : N) : str :=
  if (cp <? 0x10000)%N then [cp]
  else [(0xD800 + (cp - 0x10000) / 0x400)%N; (0xDC00 + (cp - 0x10000) mod 0x400)%N].

(** The code units of the code point [cp] decoded from a sequence whose
    shortest-form lower bound is [least], followed by [rest]. *)
Definition decoded (least cp : N) (rest : option str) : option str :=
  if ((least <=? cp) && (cp <=? 0x10FFFF) && negb ((0xD800 <=? cp) && (cp <=? 0xDFFF)))%N
  then app (utf16 cp) <$> rest
  else None.

Fixpoint Decode (s : str) : option str :=
  match s with
  | [] => Some []
  | c :: s0 =>
      if negb (c =? 37)%N then cons c <$> Decode s0
      else
        match s0 with
        | h :: l :: s1 =>
            match hex_octet h l with
            | None => None
            | Some b =>
                if (b <? 0x80)%N then cons b <$> Decode s1
                else if (b <? 0xC0)%N then None
                else if (b <? 0xE0)%N then
                  match s1 with
                  | p1 :: h1 :: l1 :: s2 =>
                      match continuation p1 h1 l1 with
                      | Some b1 => decoded 0x80 ((b - 0xC0) * 0x40 + b1) (Decode s2)
                      | None => None
                      end
                  | _ => None
                  end
                else if (b <? 0xF0)%N then
                  match s1 with
                  | p1 :: h1 :: l1 :: p2 :: h2 :: l2 :: s3 =>
                      match continuation p1 h1 l1, continuation p2 h2 l2 with
                      | Some b1, Some b2 =>
                          decoded 0x800 (((b - 0xE0) * 0x40 + b1) * 0x40 + b2) (Decode s3)
                      | _, _ => None
                      end
                  | _ => None
                  end
                else if (b <? 0xF8)%N then
                  match s1 with
                  | p1 :: h1 :: l1 :: p2 :: h2 :: l2 :: p3 :: h3 :: l3 :: s4 =>
                      match continuation p1 h1 l1, continuation p2 h2 l2,
                            continuation p3 h3 l3 with
                      | Some b1, Some b2, Some b3 =>
                          decoded 0x10000
                            ((((b - 0xF0) * 0x40 + b1) * 0x40 + b2) * 0x40 + b3)
                            (Decode s4)
                      | _, _, _ => None
                      end
                  | _ => None
                  end
                else None
            end
        | _ => None
        end
  end.

(** [Encode] of ECMA-262 with the unreserved set of [encodeURIComponent]:
    every other code point becomes the escapes of its UTF-8 octets, and a
    lone surrogate throws. *)

Definition hex_digit (n : N) : N :=
  if (n <? 10)%N then (48 + n)%N else (55 + n)%N.

Definition is_unreserved (c : N) : bool :=
  (((48 <=? c) && (c <=? 57)) || ((65 <=? c) && (c <=? 90)) || ((97 <=? c) && (c <=? 122))
   || existsb (N.eqb c) (u "-_.!~*'()"))%N.

Definition utf8 (cp : N) : list N :=
  if (cp <? 0x80)%N then [cp]
  else if (cp <? 0x800)%N then [0xC0 + cp / 0x40; 0x80 + cp mod 0x40]%N
  else if (cp <? 0x10000)%N
       then [0xE0 + cp / 0x1000; 0x80 + (cp / 0x40) mod 0x40; 0x80 + cp mod 0x40]%N
       else [0xF0 + cp / 0x40000; 0x80 + (cp / 0x1000) mod 0x40;
             0x80 + (cp / 0x40) mod 0x40; 0x80 + cp mod 0x40]%N.

Definition escapes (octets : list N) : str :=
  flat_map (λ b, [37; hex_digit (b / 16); hex_digit (b mod 16)]%N) octets.

Definition is_lead_surrogate (c : N) : bool := ((0xD800 <=? c) && (c <=? 0xDBFF))%N.
Definition is_trail_surrogate (c : N) : bool := ((0xDC00 <=? c) && (c <=? 0xDFFF))%N.

Fixpoint Encode (s : str) : option str :=
  match s with
  | [] => Some []
  | c :: s' =>
      if is_unreserved c then cons c <$> Encode s'
      else if is_trail_surrogate c then None
      else if is_lead_surrogate c
           then match s' with
                | d :: s'' =>
                    if is_trail_surrogate d
                    then app (escapes (utf8 ((c - 0xD800) * 0x400 + (d - 0xDC00) + 0x10000)%N))
                           <$> Encode s''
                    else None
                | [] => None
                end
           else app (escapes (utf8 c)) <$> Encode s'
  end.

Definition ecmascript_uri : UriCodec :=
  {| encodeURIComponent := Encode; decodeURIComponent := Decode |}.

Definition fault (f : option str) : str + unit :=
  match f with
  | Some message => inl message
  | None => inr tt
  end.

Definition uri_call (r : option str) : M str :=
  match r with
  | Some s => mret s
  | None => throw (u "URI malformed")
  end.

Definition user_agent : str :=
  u "Mozilla/5.0 (Windows NT 10.0; Win64; x64) AppleWebKit/537.36 (KHTML, like Gecko) Chrome/91.0.4472.124 Safari/537.36".

Definition delay (ms : N) : M unit := call (Delay ms) (inr tt).

Definition console_error (label message : str) : M unit :=
  call (ConsoleError label message) (inr tt).

Section Pipelines.
Context `{UriCodec} (env : process_env) (w : engine).

(** [chrome] is not bound in the module (the package is required as
    [chromium]), so the production branch throws a ReferenceError. *)
Definition launchBrowser : M unit :=
  executablePath ←
    (match NODE_ENV env with
     | Some mode =>
         if str_eqb mode (u "production")
         then throw (u "chrome is not defined")
         else mret (or_null (CHROME_PATH env))
     | None => mret (or_null (CHROME_PATH env))
     end);
  call (Launch executablePath) (fault (launch_fault w)).

Definition newPage : M unit := call NewPage (fault (newPage_fault w)).

Definition setViewport (width height : nat) : M unit :=
  call (SetViewport width height) (fault (setViewport_fault w)).

Definition setUserAgent (ua : str) : M unit :=
  call (SetUserAgent ua) (fault (setUserAgent_fault w)).

Definition goto (url : str) (timeout : N) : M document :=
  call (Goto url timeout) (goto_result w url).

(** Resolves once an element matching [sel] is in the document, and
    throws a TimeoutError when none appears. *)
Definition waitForSelector (sel : str) (timeout : N) (doc : document) : M unit :=
  call (WaitForSelector sel timeout)
       (match document_querySelector sel doc with
        | Some _ => inr tt
        | None => inl (selector_timeout w sel)
        end).

Definition evaluate {A} (callback : document → A) (doc : document) : M A :=
  call Evaluate
       (match evaluate_fault w with
        | Some message => inl message
        | None => inr (callback doc)
        end).

Definition browser_close : M unit := call Close (fault (close_fault w)).

Definition scrapeMangaDetails (mangaUrl : str) : M MangaDetail.t :=
  _ ← launchBrowser;
  try_catch_finally
    (_ ← newPage;
     _ ← setViewport 1280 800;
     _ ← setUserAgent user_agent;
     doc ← goto mangaUrl 60000%N;
     _ ← waitForSelector (u ".manga-container") 30000%N doc;
     mangaDetails ← evaluate scrapeMangaDetails_evaluate doc;
     mret mangaDetails)
    (λ error,
       _ ← console_error (u "Error scraping manga:") error;
       throw (u "Failed to scrape manga: " ++ error))
    browser_close.

Definition searchManga (searchTerm : str) : M (list SearchResult.t) :=
  _ ← launchBrowser;
  try_catch_finally
    (_ ← newPage;
     _ ← setViewport 1280 800;
     _ ← setUserAgent user_agent;
     encoded ← uri_call (encodeURIComponent searchTerm);
     let searchUrl := u "https://mangadex.org/search?q=" ++ encoded in
     doc ← goto searchUrl 60000%N;
     _ ← waitForSelector (u ".manga-card") 30000%N doc;
     searchResults ← evaluate searchManga_evaluate doc;
     mret searchResults)
    (λ error,
       _ ← console_error (u "Error searching manga:") error;
       throw (u "Failed to search manga: " ++ error))
    browser_close.

Definition getChapterData (chapterUrl : str) : M ChapterData.t :=
  _ ← launchBrowser;
  try_catch_finally
    (_ ← newPage;
     _ ← setViewport 1280 800;
     _ ← setUserAgent user_agent;
     doc ← goto chapterUrl 60000%N;
     _ ← waitForSelector (u ".page-container") 30000%N doc;
     chapterData ← evaluate getChapterData_evaluate doc;
     mret chapterData)
    (λ error,
       _ ← console_error (u "Error getting chapter pages:") error;
       throw (u "Failed to get chapter pages: " ++ error))
    browser_close.

(** ** The route handlers *)

Record response := {
  status : nat;
  body : json
}.

(** [res.json(body)] and [res.status(code).json(body)]. *)
Definition res_json (code : nat) (body : json) : M response :=
  mret {| status := code; body := body |}.

(** [app.get('/search/:query')] *)
Definition get_search (query : str) : M response :=
  try_catch
    (_ ← delay 1500%N;
     results ← searchManga query;
     res_json 200 (JObject [(u "results", JArray (map SearchResult.to_json results))]))
    (λ error,
       _ ← console_error (u "Search error:") error;
       res_json 500 (JObject [(u "error", JString (u "An error occurred during the search."))])).

(** [app.get('/read/:chapterId')] *)
Definition get_read (chapterId : str) : M response :=
  try_catch
    (_ ← delay 1000%N;
     decodedChapterId ← uri_call (decodeURIComponent chapterId);
     let url := u "https://mangadex.org/chapter/" ++ decodedChapterId in
     chapterData ← getChapterData url;
     res_json 200 (ChapterData.to_json chapterData))
    (λ error,
       _ ← console_error (u "Reader error:") error;
       res_json 500
         (JObject [(u "error", JString (u "An error occurred while fetching the chapter."));
                   (u "images", JArray []);
                   (u "prev_chapter", JNull);
                   (u "next_chapter", JNull)])).

(** [app.get('/detail/:mangaId')] *)
Definition get_detail (mangaId : str) : M response :=
  try_catch
    (_ ← delay 1000%N;
     let url := u "https://mangadex.org/title/" ++ mangaId in
     mangaDetails ← scrapeMangaDetails url;
     res_json 200 (MangaDetail.to_json mangaDetails))
    (λ error,
       _ ← console_error (u "Manga detail error:") error;
       res_json 500
         (JObject [(u "error", JString (u "An error occurred while fetching manga details."))])).
End Pipelines.


(** ** Vocabulary of the statements *)

(** [lit] occurs in [s] as a contiguous substring. *)
Fixpoint occurs (lit s : str) : bool :=
  starts_with lit s ||
  match s with
  | [] => false
  | _ :: s' => occurs lit s'
  end.

Definition no_line_terminator (s : str) : bool :=
  forallb (λ c, negb (is_line_terminator c)) s.

Definition ends_with_slash (s : str) : bool :=
  match last s with
  | Some c => (c =? 0x2F)%N
  | None => false
  end.

(** [s] without one trailing slash, if it has one. *)
Definition chomp_slash (s : str) : str :=
  if ends_with_slash s then take (length s - 1) s else s.

(** The href has the expected shape: somewhere [<segment>/], and from
    there to the end of the string no line terminator. *)
Definition has_id_segment (segment : string) (href : str) : Prop :=
  ∃ prefix rest,
    href = prefix ++ (u segment ++ u "/") ++ rest ∧ no_line_terminator rest = true.

(** The number of [browser.close()] calls in a trace. *)
Fixpoint close_count (t : list event) : nat :=
  match t with
  | [] => 0
  | Close :: t' => S (close_count t')
  | _ :: t' => close_count t'
  end.

(** The continuation of the group in an identifier pattern, [\/?$] with
    the capture computed from what the group consumed of [s1]. *)
Definition id_tail (s1 : str) : str → option str :=
  λ s2, match_pieces [Opt (Char 0x2F%N); EndOfInput] s2
          (λ _, Some (take (length s1 - length s2) s1)).

(** The names of the members of a JSON object, and of those that are
    [null]. *)
Definition is_null (j : json) : bool :=
  match j with
  | JNull => true
  | _ => false
  end.

Definition member_names (j : json) : list str :=
  match j with
  | JObject members => map fst members
  | _ => []
  end.

Definition null_members (j : json) : list str :=
  match j with
  | JObject members => map fst (List.filter (λ kv, is_null (snd kv)) members)
  | _ => []
  end.

(** The process runs in production mode. *)
Definition production (env : process_env) : bool :=
  match NODE_ENV env with
  | Some mode => str_eqb mode (u "production")
  | None => false
  end.

(** [launchBrowser] hands a browser to its caller. *)
Definition browser_launched (env : process_env) (w : engine) : bool :=
  negb (production env) &&
  match launch_fault w with
  | None => true
  | Some _ => false
  end.

(** Every call of a computation satisfies [P]. *)
Definition calls {A} (P : event → Prop) (m : M A) : Prop := Forall P m.1.

(** An event that, if it is a navigation, goes to [url]. *)
Definition navigates_to (url : str) (ev : event) : Prop :=
  ∀ url' timeout, ev = Goto url' timeout → url' = url.

(** A trace in which the browser, if one was launched, is closed exactly
    once, by the last call. *)
Definition closed_once (env : process_env) (w : engine) (t : list event) : Prop :=
  close_count t = (if browser_launched env w then 1 else 0)
  ∧ (browser_launched env w = true → last t = Some Close).

(** ** Sample pages *)

(** A search card whose only content is a link. *)
Definition link_card (href : str) : element :=
  Element (u "div") [(u "class", u "manga-card")]
    [ElementNode (Element (u "a") [(u "href", href)] [])].

(** A page whose body holds [nodes]. *)
Definition page (nodes : list node) : document :=
  Element (u "html") [] [ElementNode (Element (u "body") [] nodes)].

Definition anchor (class href : str) : node :=
  ElementNode (Element (u "a") [(u "class", class); (u "href", href)] []).

Definition page_image (attrs : list (str * str)) : node :=
  ElementNode (Element (u "img") ((u "class", u "page-image") :: attrs) []).

(** A search card with no content at all. *)
Definition bare_card : element :=
  Element (u "div") [(u "class", u "manga-card")] [].

Definition three_image_page : document :=
  page [page_image [(u "src", u "/p/1.png")];
        page_image [];
        page_image [(u "data-src", u "/p/3.png")]].

(** A search page with one card. *)
Definition one_card_page : document :=
  page [ElementNode (link_card (u "/title/abc-1"))].

(** A chapter page that has rendered its container. *)
Definition rendered_chapter_page : document :=
  page [ElementNode (Element (u "div") [(u "class", u "page-container")] [])].

(** ** Sample environments

    A development process and an engine without faults that serves [doc]
    at every url. *)

Definition development : process_env :=
  {| NODE_ENV := None; CHROME_PATH := None |}.

Definition serving (doc : document) : engine :=
  {| launch_fault := None;
     newPage_fault := None;
     setViewport_fault := None;
     setUserAgent_fault := None;
     goto_result := λ _, inr doc;
     selector_timeout := λ sel, u "waiting for selector failed: " ++ sel;
     evaluate_fault := None;
     close_fault := None |}.

(** Another process and another engine, with their own browser binary and
    error messages, serving the same pages. *)
Definition staging : process_env :=
  {| NODE_ENV := Some (u "development"); CHROME_PATH := Some (u "/usr/bin/chromium") |}.

Definition serving_quietly (doc : document) : engine :=
  {| launch_fault := None;
     newPage_fault := None;
     setViewport_fault := None;
     setUserAgent_fault := None;
     goto_result := λ _, inr doc;
     selector_timeout := λ _, u "TimeoutError";
     evaluate_fault := None;
     close_fault := None |}.

(** ** Vocabulary of the further properties *)

(** The calls made to the browser engine, as opposed to the delay and the
    console. *)
Definition is_engine_call (ev : event) : bool :=
  match ev with
  | Delay _ | ConsoleError _ _ => false
  | _ => true
  end.

Definition engine_calls (t : list event) : list event :=
  List.filter is_engine_call t.

Definition is_console_error (ev : event) : bool :=
  match ev with
  | ConsoleError _ _ => true
  | _ => false
  end.

(** The page calls of a pipeline, in the order of the source. *)
Definition page_script (url sel : str) : list event :=
  [NewPage; SetViewport 1280 800; SetUserAgent user_agent; Goto url 60000%N;
   WaitForSelector sel 30000%N; Evaluate].

(** No call on a launched browser faults. *)
Definition fault_free (w : engine) : Prop :=
  newPage_fault w = None ∧ setViewport_fault w = None ∧ setUserAgent_fault w = None
  ∧ evaluate_fault w = None ∧ close_fault w = None.

(** A string that neither starts nor ends with a character [trim] removes. *)
Definition trimmed (s : str) : Prop :=
  (∀ c, head s = Some c → is_trimmable c = false)
  ∧ (∀ c, last s = Some c → is_trimmable c = false).


(** A detail page that has rendered its container, with two genre tags. *)
Definition rendered_detail_page : document :=
  page [ElementNode
          (Element (u "div") [(u "class", u "manga-container")]
             [ElementNode (Element (u "span") [(u "class", u "genre-tag")]
                             [TextNode (u " Action ")]);
              ElementNode (Element (u "span") [(u "class", u "genre-tag")]
                             [TextNode (u "Drama")])])].

(** An engine whose [close] faults, and one whose navigation times out. *)
Definition failing_close (doc : document) : engine :=
  {| launch_fault := None;
     newPage_fault := None;
     setViewport_fault := None;
     setUserAgent_fault := None;
     goto_result := λ _, inr doc;
     selector_timeout := λ _, u "TimeoutError";
     evaluate_fault := None;
     close_fault := Some (u "Protocol error") |}.


Definition production_env : process_env :=
  {| NODE_ENV := Some (u "production"); CHROME_PATH := None |}.

(** A route run that starts with its delay and always answers: with 200
    and nothing on the error console, or with 500 and, as its last action,
    one line on the error console under the route's [label]. *)
Definition answered (ms : N) (label : str) (run : M response) : Prop :=
  ∃ resp,
    run.2 = inr resp
    ∧ head run.1 = Some (Delay ms)
    ∧ ((status resp = 200 ∧ Forall (λ ev, is_console_error ev = false) run.1)
       ∨ (status resp = 500 ∧ ∃ error, last run.1 = Some (ConsoleError label error))).

(** * Properties *)

(** ** The definitions at work *)

Example trim_spaces : trim (u "  One Piece 	") = u "One Piece".
Proof. reflexivity. Qed.

Example match_title : str_match title_re (u "https://mangadex.org/title/a1b2/") = Some (u "a1b2").
Proof. reflexivity. Qed.

Example match_chapter_with_slug : str_match chapter_re (u "/chapter/77/3") = Some (u "77/3").
Proof. reflexivity. Qed.

Example no_match : str_match title_re (u "#") = None.
Proof. reflexivity. Qed.

Example class_tokens :
  classList (Element (u "div") [(u "class", u " manga-card  featured ")] [])
  = [u "manga-card"; u "featured"].
Proof. reflexivity. Qed.

Example text_of_nested :
  textContent (Element (u "p") []
                 [TextNode (u "Vol. ");
                  ElementNode (Element (u "b") [] [TextNode (u "3")])]) = u "Vol. 3".
Proof. reflexivity. Qed.

Example decode_escape : Decode (u "a%2Fb") = Some (u "a/b").
Proof. reflexivity. Qed.

Example decode_euro : Decode (u "%E2%82%AC") = Some [0x20AC%N].
Proof. reflexivity. Qed.

Example decode_malformed : Decode (u "100%") = None ∧ Decode (u "%C0%80") = None.
Proof. split; reflexivity. Qed.

Example encode_query : Encode (u "one piece") = Some (u "one%20piece").
Proof. reflexivity. Qed.

Example read_route_malformed_id :
  (@get_read ecmascript_uri development (serving rendered_chapter_page) (u "100%")).2
  = inr {| status := 500;
           body := JObject
             [(u "error", JString (u "An error occurred while fetching the chapter."));
              (u "images", JArray []);
              (u "prev_chapter", JNull);
              (u "next_chapter", JNull)] |}.
Proof. reflexivity. Qed.

Example read_route_success :
  (@get_read ecmascript_uri development (serving rendered_chapter_page) (u "abc123")).2
  = inr {| status := 200;
           body := JObject
             [(u "title", JString (u "Unknown Chapter"));
              (u "images", JArray []);
              (u "prev_chapter", JNull);
              (u "next_chapter", JNull)] |}.
Proof. reflexivity. Qed.

(** ** Identifier patterns *)

Lemma starts_with_app (l s : str) : starts_with l (l ++ s) = true.
Proof.
  induction l as [|c l IH]; simpl; [done|].
  by rewrite N.eqb_refl.
Qed.

Lemma starts_with_inv (l s : str) :
  starts_with l s = true → s = l ++ drop (length l) s.
Proof.
  revert s; induction l as [|c l IH]; intros [|d s]; simpl; try done.
  intros [Hc Hl]%andb_true_iff. apply N.eqb_eq in Hc. subst d.
  f_equal. by apply IH.
Qed.

Lemma id_tail_nil (s1 : str) : id_tail s1 [] = Some s1.
Proof.
  unfold id_tail; simpl. f_equal. rewrite Nat.sub_0_r. apply firstn_all.
Qed.

Lemma id_tail_slash (s1 : str) :
  id_tail s1 [0x2F%N] = Some (take (length s1 - 1) s1).
Proof. done. Qed.

Lemma id_tail_long (s1 : str) (c d : N) (s : str) : id_tail s1 (c :: d :: s) = None.
Proof.
  unfold id_tail; simpl. by destruct (c =? 47)%N.
Qed.

Lemma id_tail_other (s1 : str) (c : N) :
  c ≠ 0x2F%N → id_tail s1 [c] = None.
Proof.
  intros Hc. unfold id_tail; simpl.
  by destruct (N.eqb_spec c 47).
Qed.

Lemma chomp_slash_cons (c d : N) (s : str) :
  chomp_slash (c :: d :: s) = c :: chomp_slash (d :: s).
Proof.
  unfold chomp_slash, ends_with_slash.
  change (last (c :: d :: s)) with (last (d :: s)).
  destruct (last (d :: s)) as [x|]; [|done].
  destruct (x =? 47)%N; [|done].
  simpl. by rewrite Nat.sub_0_r.
Qed.

Lemma chomp_slash_app_slash (s : str) : chomp_slash (s ++ [0x2F%N]) = s.
Proof.
  unfold chomp_slash, ends_with_slash.
  rewrite last_snoc. simpl.
  rewrite length_app. simpl.
  replace (length s + 1 - 1) with (length s) by lia.
  by rewrite take_app_length.
Qed.

Lemma chomp_slash_id (s : str) : ends_with_slash s = false → chomp_slash s = s.
Proof. unfold chomp_slash. by intros ->. Qed.

(** What the lazy group and the tail of an identifier pattern make of the
    text [r] that follows the literal, [pre] being already in the group. *)
Lemma lazy_star_id (pre r : str) :
  lazy_star AnyChar r (id_tail (pre ++ r)) =
  if no_line_terminator r then Some (pre ++ chomp_slash r) else None.
Proof.
  revert pre; induction r as [|c r IH]; intros pre.
  - cbn [lazy_star]. by rewrite id_tail_nil.
  - destruct r as [|d r].
    + cbn [lazy_star].
      destruct (N.eqb_spec c 47) as [->|Hc].
      * rewrite id_tail_slash. simpl.
        rewrite length_app. simpl.
        replace (length pre + 1 - 1) with (length pre) by lia.
        rewrite take_app_length. by rewrite app_nil_r.
      * rewrite id_tail_other by done.
        unfold no_line_terminator; cbn [forallb].
        unfold in_class. destruct (is_line_terminator c); cbn [negb andb]; [done|].
        rewrite id_tail_nil.
        unfold chomp_slash, ends_with_slash; simpl.
        by destruct (N.eqb_spec c 47).
    + cbn [lazy_star]. rewrite id_tail_long.
      rewrite chomp_slash_cons.
      change (no_line_terminator (c :: d :: r))
        with (negb (is_line_terminator c) && no_line_terminator (d :: r)).
      unfold in_class. destruct (is_line_terminator c); simpl negb; cbv iota; [done|].
      rewrite andb_true_l.
      specialize (IH (pre ++ [c])).
      rewrite <- !app_assoc in IH. simpl in IH. exact IH.
Qed.

Lemma match_at_id (segment : string) (s : str) :
  match_at (id_pattern segment) s =
  let lit := u segment ++ u "/" in
  if starts_with lit s
  then let r := drop (length lit) s in
       if no_line_terminator r then Some (chomp_slash r) else None
  else None.
Proof.
  unfold match_at, id_pattern; cbn [before inside after match_pieces match_piece].
  cbv zeta. destruct (starts_with _ s); [|done].
  exact (lazy_star_id [] _).
Qed.

Lemma str_match_unfold (re : pattern) (s : str) :
  str_match re s =
  match match_at re s with
  | Some g => Some g
  | None => match s with [] => None | _ :: s' => str_match re s' end
  end.
Proof. by destruct s. Qed.

Lemma occurs_cons (lit : str) (c : N) (s : str) :
  occurs lit (c :: s) = false → occurs lit s = false.
Proof. simpl. by intros [_ ?]%orb_false_iff. Qed.

Lemma occurs_starts_with (lit s : str) :
  occurs lit s = false → starts_with lit s = false.
Proof. destruct s; simpl; by intros [? _]%orb_false_iff. Qed.

(** Neither literal overlaps itself, so an occurrence that starts inside a
    prefix free of the literal cannot run into the occurrence behind it. *)
Ltac literal_not_before p H :=
  let rec go p :=
    destruct p as [|? p];
    [ simpl; rewrite ?andb_false_r; reflexivity
    | first [ apply occurs_starts_with in H; simpl in H |- *; exact H | go p ] ] in
  destruct p as [|? p]; [ congruence | go p ].

Lemma title_not_before (p rest : str) :
  p ≠ [] → occurs (u "title" ++ u "/") p = false →
  starts_with (u "title" ++ u "/") (p ++ (u "title" ++ u "/") ++ rest) = false.
Proof.
  set (lit := u "title" ++ u "/"). vm_compute in lit. subst lit.
  intros Hp H. literal_not_before p H.
Qed.

Lemma chapter_not_before (p rest : str) :
  p ≠ [] → occurs (u "chapter" ++ u "/") p = false →
  starts_with (u "chapter" ++ u "/") (p ++ (u "chapter" ++ u "/") ++ rest) = false.
Proof.
  set (lit := u "chapter" ++ u "/"). vm_compute in lit. subst lit.
  intros Hp H. literal_not_before p H.
Qed.

Section IdPattern.
Variable segment : string.
Let lit : str := u segment ++ u "/".
Hypothesis not_before : ∀ p rest : str,
  p ≠ [] → occurs lit p = false → starts_with lit (p ++ lit ++ rest) = false.

Lemma str_match_at_literal (rest : str) :
  no_line_terminator rest = true →
  str_match (id_pattern segment) (lit ++ rest) = Some (chomp_slash rest).
Proof.
  intros Hlt. rewrite str_match_unfold, match_at_id. cbv zeta. fold lit.
  rewrite starts_with_app, drop_app_length, Hlt. done.
Qed.

Lemma str_match_first_segment (prefix rest : str) :
  occurs lit prefix = false → no_line_terminator rest = true →
  str_match (id_pattern segment) (prefix ++ lit ++ rest) = Some (chomp_slash rest).
Proof.
  intros Hocc Hlt. induction prefix as [|c prefix IH].
  - by apply str_match_at_literal.
  - rewrite str_match_unfold, match_at_id. cbv zeta. fold lit.
    rewrite not_before by done.
    simpl. apply IH. by apply occurs_cons in Hocc.
Qed.
End IdPattern.

Lemma str_match_some_segment (segment : string) (href : str) :
  has_id_segment segment href → is_Some (str_match (id_pattern segment) href).
Proof.
  intros (prefix & rest & -> & Hlt).
  induction prefix as [|c prefix IH].
  - rewrite app_nil_l, str_match_unfold, match_at_id. cbv zeta.
    rewrite starts_with_app, drop_app_length, Hlt. by eexists.
  - rewrite str_match_unfold.
    destruct (match_at _ _); [by eexists|]. exact IH.
Qed.

Lemma str_match_segment (segment : string) (href id : str) :
  str_match (id_pattern segment) href = Some id → has_id_segment segment href.
Proof.
  induction href as [|c href IH]; rewrite str_match_unfold, match_at_id; cbv zeta.
  - destruct (starts_with _ []) eqn:Hs; [|done].
    destruct (no_line_terminator _) eqn:Hlt; [|done].
    intros _. apply starts_with_inv in Hs.
    exists [], (drop (length (u segment ++ u "/")) []). by split.
  - destruct (starts_with _ (c :: href)) eqn:Hs.
    + destruct (no_line_terminator _) eqn:Hlt.
      * intros _. apply starts_with_inv in Hs.
        exists [], (drop (length (u segment ++ u "/")) (c :: href)). by split.
      * intros (prefix & rest & -> & Hr)%IH. by exists (c :: prefix), rest.
    + intros (prefix & rest & -> & Hr)%IH. by exists (c :: prefix), rest.
Qed.

(** The pattern fails exactly on the hrefs that lack the segment. *)
Lemma str_match_none_iff (segment : string) (href : str) :
  str_match (id_pattern segment) href = None ↔ ¬ has_id_segment segment href.
Proof.
  split.
  - intros Hn Hseg. apply str_match_some_segment in Hseg as [id Hid]. congruence.
  - intros Hn. destruct (str_match _ href) as [id|] eqn:Hm; [|done].
    destruct Hn. by eapply str_match_segment.
Qed.

(** ** C2: identifiers parsed from matching hrefs *)

(** C2, as stated, fails: the pattern is searched from the left and its
    group runs to the end of the string, so for the href
    [/title/a/title/b], which ends in [title/b], the search card gets the
    identifier [a/title/b] and not [b]; for [title/abc//] the identifier is
    [abc/], with a trailing slash; and an identifier holding a line feed,
    as in [/chapter/a<LF>b], is not matched at all. *)
Lemma id_not_last_segment :
  u "/title/a/title/b" = u "/title/a/" ++ u "title/" ++ u "b"
  ∧ SearchResult.manga_id (searchManga_card (link_card (u "/title/a/title/b")))
    = u "a/title/b"
  ∧ u "a/title/b" ≠ u "b"
  ∧ searchManga_id (u "title/" ++ u "abc/" ++ u "/") = u "abc/"
  ∧ getChapterData_link (Some (u "/chapter/" ++ [97; 10; 98]%N)) = None.
Proof. repeat split; by vm_compute. Qed.

(** C2, amended: when [prefix] holds no earlier [title/] (for the chapter
    links, [chapter/]), and [id] holds no line terminator and does not end
    in a slash, the identifier parsed from [prefix title/ id] and from
    [prefix title/ id /] is exactly [id]. *)
Theorem id_parsed_after_first_segment (prefix id : str) :
  no_line_terminator id = true →
  ends_with_slash id = false →
  (occurs (u "title/") prefix = false →
     searchManga_id (prefix ++ u "title/" ++ id) = id
     ∧ searchManga_id (prefix ++ u "title/" ++ id ++ u "/") = id)
  ∧ (occurs (u "chapter/") prefix = false →
     getChapterData_link (Some (prefix ++ u "chapter/" ++ id)) = Some id
     ∧ getChapterData_link (Some (prefix ++ u "chapter/" ++ id ++ u "/")) = Some id).
Proof.
  intros Hlt Hslash.
  assert (Hlt' : no_line_terminator (id ++ u "/") = true).
  { unfold no_line_terminator in *. rewrite forallb_app, Hlt. done. }
  split; intros Hocc.
  - unfold searchManga_id, title_re.
    change (u "title/") with (u "title" ++ u "/") in *.
    rewrite !(str_match_first_segment "title" title_not_before) by done.
    change (u "/") with [0x2F%N].
    by rewrite chomp_slash_app_slash, chomp_slash_id.
  - assert (Hne : ∀ rest, or_null (Some (prefix ++ u "chapter/" ++ rest))
                          = Some (prefix ++ u "chapter/" ++ rest)).
    { intros rest. by destruct prefix. }
    unfold getChapterData_link, chapter_re. rewrite !Hne.
    change (u "chapter/") with (u "chapter" ++ u "/") in *.
    rewrite !(str_match_first_segment "chapter" chapter_not_before) by done.
    change (u "/") with [0x2F%N].
    by rewrite chomp_slash_app_slash, chomp_slash_id.
Qed.

Lemma id_parsed_after_first_segment_witness :
  searchManga_id (u "https://mangadex.org/" ++ u "title/" ++ u "a1b2-c3") = u "a1b2-c3"
  ∧ searchManga_id (u "https://mangadex.org/" ++ u "title/" ++ u "a1b2-c3" ++ u "/")
    = u "a1b2-c3"
  ∧ getChapterData_link (Some (u "/" ++ u "chapter/" ++ u "77")) = Some (u "77")
  ∧ getChapterData_link (Some (u "/" ++ u "chapter/" ++ u "77" ++ u "/")) = Some (u "77").
Proof.
  destruct (id_parsed_after_first_segment (u "https://mangadex.org/") (u "a1b2-c3"))
    as [Ht _]; [reflexivity | reflexivity |].
  destruct (id_parsed_after_first_segment (u "/") (u "77"))
    as [_ Hc]; [reflexivity | reflexivity |].
  destruct (Ht eq_refl) as [Ht1 Ht2].
  destruct (Hc eq_refl) as [Hc1 Hc2].
  exact (conj Ht1 (conj Ht2 (conj Hc1 Hc2))).
Defined.

(** ** C3: hrefs that do not match *)

Lemma searchManga_id_unmatched (url : str) :
  ¬ has_id_segment "title" url → searchManga_id url = u "".
Proof.
  intros Hn. unfold searchManga_id, title_re.
  by apply str_match_none_iff in Hn as ->.
Qed.

Lemma getChapterData_link_unmatched (link : option str) :
  (∀ href, link = Some href → ¬ has_id_segment "chapter" href) →
  getChapterData_link link = None.
Proof.
  intros Hn. unfold getChapterData_link, chapter_re.
  destruct link as [[|c href]|]; simpl or_null; cbv iota; try done.
  apply str_match_none_iff. by apply Hn.
Qed.

(** C3: identifier parsing is total, and on an href without the expected
    segment it yields the absent value of its call site: the empty string
    for the [manga_id] of a search result (whose url is the href of the
    card's link, or [#]), and [null] for [prev_chapter] and
    [next_chapter]. *)
Theorem unmatched_href_gives_absent_id (el : element) (doc : document) :
  (¬ has_id_segment "title"
       (or_else (attribute_of (u "href") (querySelector (u "a") el)) (u "#")) →
   SearchResult.manga_id (searchManga_card el) = u "")
  ∧ ((∀ href,
        attribute_of (u "href") (document_querySelector (u ".prev-chapter") doc) = Some href →
        ¬ has_id_segment "chapter" href) →
     ChapterData.prev_chapter (getChapterData_evaluate doc) = None)
  ∧ ((∀ href,
        attribute_of (u "href") (document_querySelector (u ".next-chapter") doc) = Some href →
        ¬ has_id_segment "chapter" href) →
     ChapterData.next_chapter (getChapterData_evaluate doc) = None).
Proof.
  split; [|split].
  - apply searchManga_id_unmatched.
  - apply getChapterData_link_unmatched.
  - apply getChapterData_link_unmatched.
Qed.

Lemma unmatched_href_gives_absent_id_witness :
  SearchResult.manga_id (searchManga_card (link_card (u "/manga/42"))) = u ""
  ∧ ChapterData.prev_chapter
      (getChapterData_evaluate
         (page [anchor (u "prev-chapter") (u "/reader/7");
                anchor (u "next-chapter") (u "javascript:void(0)")])) = None
  ∧ ChapterData.next_chapter
      (getChapterData_evaluate
         (page [anchor (u "prev-chapter") (u "/reader/7");
                anchor (u "next-chapter") (u "javascript:void(0)")])) = None.
Proof.
  pose proof (unmatched_href_gives_absent_id
                (link_card (u "/manga/42"))
                (page [anchor (u "prev-chapter") (u "/reader/7");
                       anchor (u "next-chapter") (u "javascript:void(0)")]))
    as (Hs & Hp & Hn).
  refine (conj _ (conj _ _)).
  - apply Hs. apply str_match_none_iff. reflexivity.
  - apply Hp. intros href Hh. vm_compute in Hh. injection Hh as <-.
    apply (str_match_none_iff "chapter"). reflexivity.
  - apply Hn. intros href Hh. vm_compute in Hh. injection Hh as <-.
    apply (str_match_none_iff "chapter"). reflexivity.
Defined.

(** ** C5 and C10: the images of a chapter page *)

Lemma images_lookup (doc : document) (i : nat) :
  ChapterData.images (getChapterData_evaluate doc) !! i =
  getChapterData_image i <$> document_querySelectorAll (u ".page-image") doc !! i.
Proof. unfold getChapterData_evaluate; simpl. apply list_lookup_imap. Qed.

Lemma images_length (doc : document) :
  length (ChapterData.images (getChapterData_evaluate doc)) =
  length (document_querySelectorAll (u ".page-image") doc).
Proof. unfold getChapterData_evaluate; simpl. apply length_imap. Qed.

(** C5: on a chapter page with N [.page-image] nodes the page numbers of
    the extracted images are 1, 2, ..., N, and the image at each position
    is the one built from the node at that position of the document. *)
Theorem page_numbers_contiguous (doc : document) :
  let nodes := document_querySelectorAll (u ".page-image") doc in
  let images := ChapterData.images (getChapterData_evaluate doc) in
  map ChapterImage.pageNumber images = seq 1 (length nodes)
  ∧ ∀ i : nat, images !! i = getChapterData_image i <$> nodes !! i.
Proof.
  cbv zeta. split; [|apply images_lookup].
  apply list_eq; intros i.
  rewrite list_lookup_fmap, images_lookup.
  destruct (document_querySelectorAll _ doc !! i) as [el|] eqn:Hi; simpl.
  - apply lookup_lt_Some in Hi.
    rewrite lookup_seq_lt by done. f_equal. lia.
  - apply lookup_ge_None in Hi.
    by rewrite lookup_seq_ge.
Qed.

(** C10: the images are as many as the [.page-image] nodes, and a node
    with neither a [src] nor a [data-src] attribute stays in the sequence,
    with a [null] imageUrl and the page number of its position. *)
Theorem attributeless_image_kept (doc : document) :
  let nodes := document_querySelectorAll (u ".page-image") doc in
  let images := ChapterData.images (getChapterData_evaluate doc) in
  length images = length nodes
  ∧ ∀ (i : nat) (el : element),
      nodes !! i = Some el →
      getAttribute (u "src") el = None →
      getAttribute (u "data-src") el = None →
      images !! i = Some {| ChapterImage.pageNumber := i + 1;
                            ChapterImage.imageUrl := None |}.
Proof.
  cbv zeta. split; [apply images_length|].
  intros i el Hi Hsrc Hdata.
  rewrite images_lookup, Hi. simpl.
  unfold getChapterData_image. by rewrite Hsrc, Hdata.
Qed.

Lemma attributeless_image_kept_witness :
  length (ChapterData.images (getChapterData_evaluate three_image_page)) = 3
  ∧ ChapterData.images (getChapterData_evaluate three_image_page) !! 1 =
    Some {| ChapterImage.pageNumber := 2; ChapterImage.imageUrl := None |}.
Proof.
  destruct (attributeless_image_kept three_image_page) as [Hlen Hkeep].
  refine (conj _ _).
  - rewrite Hlen. reflexivity.
  - apply (Hkeep 1 (Element (u "img") [(u "class", u "page-image")] []));
      reflexivity.
Defined.

(** ** C4: fallbacks *)

Lemma or_else_nonempty (a : option str) (b : str) : b ≠ [] → or_else a b ≠ [].
Proof. by destruct a as [[|c s]|]. Qed.

Lemma or_null_nonempty (a : option str) : or_null a ≠ Some [].
Proof. by destruct a as [[|c s]|]. Qed.

(** C4, as stated, fails: a search card without a [.latest-chapter] and
    without a [.rating] node gets the empty string in both fields (and in
    [manga_id]), not a non-empty marker. *)
Lemma search_fallbacks_are_empty :
  querySelector (u ".latest-chapter") bare_card = None
  ∧ SearchResult.latest_chapter (searchManga_card bare_card) = []
  ∧ querySelector (u ".rating") bare_card = None
  ∧ SearchResult.rating (searchManga_card bare_card) = []
  ∧ SearchResult.manga_id (searchManga_card bare_card) = [].
Proof. repeat split; reflexivity. Qed.

Ltac absent_field :=
  let H := fresh in
  intros H;
  unfold searchManga_card, scrapeMangaDetails_chapter, scrapeMangaDetails_evaluate,
    getChapterData_evaluate; cbn [SearchResult.title SearchResult.manga_id
    SearchResult.image SearchResult.latest_chapter SearchResult.rating
    Chapter.number Chapter.title Chapter.uploadDate Chapter.url
    MangaDetail.title MangaDetail.image MangaDetail.description MangaDetail.author
    MangaDetail.rating ChapterData.title ChapterData.prev_chapter
    ChapterData.next_chapter];
  rewrite H; reflexivity.

Lemma search_card_fallbacks (el : element) :
  let r := searchManga_card el in
  (querySelector (u ".manga-title") el = None → SearchResult.title r = u "Unknown Title")
  ∧ (querySelector (u "a") el = None → SearchResult.manga_id r = u "")
  ∧ (querySelector (u ".thumbnail") el = None → SearchResult.image r = None)
  ∧ (querySelector (u ".latest-chapter") el = None → SearchResult.latest_chapter r = u "")
  ∧ (querySelector (u ".rating") el = None → SearchResult.rating r = u "")
  ∧ SearchResult.title r ≠ [].
Proof.
  cbv zeta. repeat split; try absent_field.
  by apply or_else_nonempty.
Qed.

Lemma detail_fallbacks (doc : document) :
  let m := scrapeMangaDetails_evaluate doc in
  (document_querySelector (u ".manga-title") doc = None →
     MangaDetail.title m = u "Unknown Title")
  ∧ (document_querySelector (u ".manga-description") doc = None →
     MangaDetail.description m = u "No description available")
  ∧ (document_querySelector (u ".author-name") doc = None →
     MangaDetail.author m = u "Unknown Author")
  ∧ (document_querySelector (u ".rating-value") doc = None →
     MangaDetail.rating m = u "No rating")
  ∧ (document_querySelector (u ".cover-image") doc = None → MangaDetail.image m = None)
  ∧ MangaDetail.title m ≠ [] ∧ MangaDetail.description m ≠ []
  ∧ MangaDetail.author m ≠ [] ∧ MangaDetail.rating m ≠ [].
Proof.
  cbv zeta. repeat split; try absent_field; by apply or_else_nonempty.
Qed.

Lemma detail_chapter_fallbacks (el : element) :
  let c := scrapeMangaDetails_chapter el in
  (querySelector (u ".chapter-number") el = None → Chapter.number c = u "Unknown")
  ∧ (querySelector (u ".chapter-title") el = None → Chapter.title c = u "No title")
  ∧ (querySelector (u ".upload-date") el = None → Chapter.uploadDate c = u "Unknown date")
  ∧ (querySelector (u "a") el = None → Chapter.url c = u "#")
  ∧ Chapter.number c ≠ [] ∧ Chapter.title c ≠ []
  ∧ Chapter.uploadDate c ≠ [] ∧ Chapter.url c ≠ [].
Proof.
  cbv zeta. repeat split; try absent_field; by apply or_else_nonempty.
Qed.

Lemma chapter_page_fallbacks (doc : document) :
  let c := getChapterData_evaluate doc in
  (document_querySelector (u ".chapter-title") doc = None →
     ChapterData.title c = u "Unknown Chapter")
  ∧ (document_querySelector (u ".prev-chapter") doc = None → ChapterData.prev_chapter c = None)
  ∧ (document_querySelector (u ".next-chapter") doc = None → ChapterData.next_chapter c = None)
  ∧ ChapterData.title c ≠ [].
Proof.
  cbv zeta. repeat split; try absent_field; by apply or_else_nonempty.
Qed.

Lemma search_result_members (r : SearchResult.t) :
  member_names (SearchResult.to_json r)
  = [u "title"; u "manga_id"; u "image"; u "latest_chapter"; u "rating"]
  ∧ null_members (SearchResult.to_json r)
    = match SearchResult.image r with None => [u "image"] | Some _ => [] end.
Proof. by destruct r as [? ? [?|] ? ?]. Qed.

Lemma manga_detail_members (m : MangaDetail.t) :
  member_names (MangaDetail.to_json m)
  = [u "title"; u "image"; u "description"; u "author"; u "genres"; u "rating";
     u "chapters"]
  ∧ null_members (MangaDetail.to_json m)
    = match MangaDetail.image m with None => [u "image"] | Some _ => [] end.
Proof. by destruct m as [? [?|] ? ? ? ? ?]. Qed.

Lemma chapter_members (c : Chapter.t) :
  member_names (Chapter.to_json c) = [u "number"; u "title"; u "uploadDate"; u "url"]
  ∧ null_members (Chapter.to_json c) = [].
Proof. by destruct c. Qed.

Lemma chapter_data_members (c : ChapterData.t) :
  member_names (ChapterData.to_json c)
  = [u "title"; u "images"; u "prev_chapter"; u "next_chapter"]
  ∧ null_members (ChapterData.to_json c)
    = match ChapterData.prev_chapter c with None => [u "prev_chapter"] | Some _ => [] end
      ++ match ChapterData.next_chapter c with None => [u "next_chapter"] | Some _ => [] end.
Proof. by destruct c as [? ? [?|] [?|]]. Qed.

Lemma chapter_image_members (i : ChapterImage.t) :
  member_names (ChapterImage.to_json i) = [u "pageNumber"; u "imageUrl"]
  ∧ null_members (ChapterImage.to_json i)
    = match ChapterImage.imageUrl i with None => [u "imageUrl"] | Some _ => [] end.
Proof. by destruct i as [? [?|]]. Qed.

(** C4, amended: every record carries all of its fields; a string field
    whose source node is absent holds its fallback, which is a non-empty
    marker everywhere except in a search result, where [latest_chapter],
    [rating] and [manga_id] fall back to the empty string; the fields with
    a non-empty marker are never empty; and the only members that can be
    [null] are [image], [imageUrl], [prev_chapter] and [next_chapter]. *)
Theorem fields_have_fallbacks (card item : element) (doc : document) :
  let r := searchManga_card card in
  let m := scrapeMangaDetails_evaluate doc in
  let c := scrapeMangaDetails_chapter item in
  let d := getChapterData_evaluate doc in
  (* search result *)
  ((querySelector (u ".manga-title") card = None → SearchResult.title r = u "Unknown Title")
   ∧ (querySelector (u "a") card = None → SearchResult.manga_id r = u "")
   ∧ (querySelector (u ".thumbnail") card = None → SearchResult.image r = None)
   ∧ (querySelector (u ".latest-chapter") card = None → SearchResult.latest_chapter r = u "")
   ∧ (querySelector (u ".rating") card = None → SearchResult.rating r = u "")
   ∧ SearchResult.title r ≠ [])
  (* manga detail *)
  ∧ ((document_querySelector (u ".manga-title") doc = None →
        MangaDetail.title m = u "Unknown Title")
     ∧ (document_querySelector (u ".manga-description") doc = None →
        MangaDetail.description m = u "No description available")
     ∧ (document_querySelector (u ".author-name") doc = None →
        MangaDetail.author m = u "Unknown Author")
     ∧ (document_querySelector (u ".rating-value") doc = None →
        MangaDetail.rating m = u "No rating")
     ∧ (document_querySelector (u ".cover-image") doc = None → MangaDetail.image m = None)
     ∧ MangaDetail.title m ≠ [] ∧ MangaDetail.description m ≠ []
     ∧ MangaDetail.author m ≠ [] ∧ MangaDetail.rating m ≠ [])
  (* one chapter of a manga detail *)
  ∧ ((querySelector (u ".chapter-number") item = None → Chapter.number c = u "Unknown")
     ∧ (querySelector (u ".chapter-title") item = None → Chapter.title c = u "No title")
     ∧ (querySelector (u ".upload-date") item = None → Chapter.uploadDate c = u "Unknown date")
     ∧ (querySelector (u "a") item = None → Chapter.url c = u "#")
     ∧ Chapter.number c ≠ [] ∧ Chapter.title c ≠ []
     ∧ Chapter.uploadDate c ≠ [] ∧ Chapter.url c ≠ [])
  (* chapter data *)
  ∧ ((document_querySelector (u ".chapter-title") doc = None →
        ChapterData.title d = u "Unknown Chapter")
     ∧ (document_querySelector (u ".prev-chapter") doc = None →
        ChapterData.prev_chapter d = None)
     ∧ (document_querySelector (u ".next-chapter") doc = None →
        ChapterData.next_chapter d = None)
     ∧ ChapterData.title d ≠ [])
  (* the members of the JSON objects, and those that can be null *)
  ∧ (member_names (SearchResult.to_json r)
       = [u "title"; u "manga_id"; u "image"; u "latest_chapter"; u "rating"]
     ∧ null_members (SearchResult.to_json r)
       = match SearchResult.image r with None => [u "image"] | Some _ => [] end)
  ∧ (member_names (MangaDetail.to_json m)
       = [u "title"; u "image"; u "description"; u "author"; u "genres"; u "rating";
          u "chapters"]
     ∧ null_members (MangaDetail.to_json m)
       = match MangaDetail.image m with None => [u "image"] | Some _ => [] end)
  ∧ (member_names (Chapter.to_json c) = [u "number"; u "title"; u "uploadDate"; u "url"]
     ∧ null_members (Chapter.to_json c) = [])
  ∧ (member_names (ChapterData.to_json d)
       = [u "title"; u "images"; u "prev_chapter"; u "next_chapter"]
     ∧ null_members (ChapterData.to_json d)
       = match ChapterData.prev_chapter d with None => [u "prev_chapter"] | Some _ => [] end
         ++ match ChapterData.next_chapter d with None => [u "next_chapter"] | Some _ => [] end)
  ∧ (∀ i : ChapterImage.t,
       member_names (ChapterImage.to_json i) = [u "pageNumber"; u "imageUrl"]
       ∧ null_members (ChapterImage.to_json i)
         = match ChapterImage.imageUrl i with None => [u "imageUrl"] | Some _ => [] end).
Proof.
  cbv zeta.
  split; [exact (search_card_fallbacks card)|].
  split; [exact (detail_fallbacks doc)|].
  split; [exact (detail_chapter_fallbacks item)|].
  split; [exact (chapter_page_fallbacks doc)|].
  split; [apply search_result_members|].
  split; [apply manga_detail_members|].
  split; [apply chapter_members|].
  split; [apply chapter_data_members|].
  apply chapter_image_members.
Qed.

Lemma fields_have_fallbacks_witness :
  SearchResult.title (searchManga_card bare_card) = u "Unknown Title"
  ∧ SearchResult.latest_chapter (searchManga_card bare_card) = u ""
  ∧ SearchResult.image (searchManga_card bare_card) = None
  ∧ MangaDetail.description (scrapeMangaDetails_evaluate (page [])) = u "No description available"
  ∧ Chapter.url (scrapeMangaDetails_chapter bare_card) = u "#"
  ∧ ChapterData.title (getChapterData_evaluate (page [])) = u "Unknown Chapter"
  ∧ ChapterData.next_chapter (getChapterData_evaluate (page [])) = None.
Proof.
  pose proof (fields_have_fallbacks bare_card bare_card (page [])) as
    ((Ht & _ & Hi & Hl & _) & (_ & Hd & _) & (_ & _ & _ & Hu & _) & (Hc & _ & Hn & _) & _).
  exact (conj (Ht eq_refl) (conj (Hl eq_refl) (conj (Hi eq_refl) (conj (Hd eq_refl)
           (conj (Hu eq_refl) (conj (Hc eq_refl) (Hn eq_refl))))))).
Defined.

(** ** Runs of the effectful code *)

Lemma bind_run {A B} (m : M A) (f : A → M B) :
  m ≫= f =
  match m with
  | (t, inl e) => (t, inl e)
  | (t, inr a) => (t ++ (f a).1, (f a).2)
  end.
Proof. destruct m as [t [e|a]]; [done|]. unfold mbind, M_bind. by destruct (f a). Qed.

Lemma try_catch_run {A} (body : M A) (handler : str → M A) :
  try_catch body handler =
  match body with
  | (t, inl e) => (t ++ (handler e).1, (handler e).2)
  | (t, inr a) => (t, inr a)
  end.
Proof. destruct body as [t [e|a]]; [|done]. unfold try_catch. by destruct (handler e). Qed.

Lemma launchBrowser_run (env : process_env) (w : engine) :
  launchBrowser env w =
  if production env
  then ([], inl (u "chrome is not defined"))
  else ([Launch (or_null (CHROME_PATH env))], fault (launch_fault w)).
Proof.
  unfold launchBrowser, production.
  destruct (NODE_ENV env) as [mode|]; [destruct (str_eqb mode _)|]; done.
Qed.

(** A browser session: [launchBrowser], then a body and its handler with
    [browser.close()] as the finalizer. *)
Lemma session_run {A} (env : process_env) (w : engine) (body : M A)
    (handler : str → M A) :
  (launchBrowser env w ≫= λ _, try_catch_finally body handler (browser_close w)) =
  if browser_launched env w
  then (Launch (or_null (CHROME_PATH env)) :: (try_catch body handler).1 ++ [Close],
        match close_fault w with
        | Some e => inl e
        | None => (try_catch body handler).2
        end)
  else (if production env then [] else [Launch (or_null (CHROME_PATH env))],
        inl (if production env then u "chrome is not defined"
             else default [] (launch_fault w))).
Proof.
  rewrite bind_run, launchBrowser_run. unfold browser_launched.
  destruct (production env); [done|].
  destruct (launch_fault w) as [e|]; [done|].
  simpl. unfold try_catch_finally, browser_close, call.
  destruct (try_catch body handler) as [t r]. simpl.
  by destruct (close_fault w).
Qed.

Lemma calls_ret {A} (P : event → Prop) (a : A) : calls P (mret a).
Proof. constructor. Qed.

Lemma calls_throw {A} (P : event → Prop) (e : str) : calls P (@throw A e).
Proof. constructor. Qed.

Lemma calls_call {A} (P : event → Prop) (ev : event) (r : str + A) :
  P ev → calls P (call ev r).
Proof. intros. by repeat constructor. Qed.

Lemma calls_bind {A B} (P : event → Prop) (m : M A) (f : A → M B) :
  calls P m → (∀ a, calls P (f a)) → calls P (m ≫= f).
Proof.
  unfold calls. intros Hm Hf. rewrite bind_run.
  destruct m as [t [e|a]]; [done|]. simpl in *.
  apply Forall_app; split; [done|]. apply Hf.
Qed.

Lemma calls_try_catch {A} (P : event → Prop) (body : M A) (handler : str → M A) :
  calls P body → (∀ e, calls P (handler e)) → calls P (try_catch body handler).
Proof.
  unfold calls. intros Hm Hf. rewrite try_catch_run.
  destruct body as [t [e|a]]; [|done]. simpl in *.
  apply Forall_app; split; [done|]. apply Hf.
Qed.

Lemma calls_uri_call (P : event → Prop) (r : option str) : calls P (uri_call r).
Proof. destruct r; constructor. Qed.

Ltac calls_step :=
  first
    [ apply calls_bind; [|intros ?]
    | apply calls_try_catch; [|intros ?]
    | apply calls_uri_call
    | apply calls_ret
    | apply calls_throw
    | apply calls_call ].

(** ** C7: the browser session is closed exactly once *)

Lemma close_count_app (t t' : list event) :
  close_count (t ++ t') = close_count t + close_count t'.
Proof.
  induction t as [|ev t IH]; [done|].
  destruct ev; simpl; rewrite ?IH; done.
Qed.

Lemma close_count_none (t : list event) :
  Forall (λ ev, ev ≠ Close) t → close_count t = 0.
Proof.
  induction 1 as [|ev t Hev _ IH]; [done|].
  by destruct ev.
Qed.

Lemma session_closed_once {A} (env : process_env) (w : engine) (body : M A)
    (handler : str → M A) :
  calls (λ ev, ev ≠ Close) (try_catch body handler) →
  closed_once env w
    (launchBrowser env w ≫= λ _, try_catch_finally body handler (browser_close w)).1.
Proof.
  intros Hb. rewrite session_run. unfold closed_once.
  destruct (browser_launched env w); simpl.
  - split.
    + rewrite close_count_app, (close_count_none _ Hb). done.
    + intros _. rewrite app_comm_cons. apply last_snoc.
  - split; [|done]. by destruct (production env).
Qed.

(** C7: in each of the three pipeline functions, whatever the engine does
    (a fault of any call, a navigation error, a selector that never
    appears, or none of these), [browser.close()] is called exactly once
    when [launchBrowser] returned a browser, as the last call before the
    function returns or throws; it is not called when no browser was
    launched. *)
Theorem browser_closed_once `{UriCodec} (env : process_env) (w : engine)
    (mangaUrl searchTerm chapterUrl : str) :
  closed_once env w (scrapeMangaDetails env w mangaUrl).1
  ∧ closed_once env w (searchManga env w searchTerm).1
  ∧ closed_once env w (getChapterData env w chapterUrl).1.
Proof.
  split; [|split]; apply session_closed_once;
    unfold newPage, setViewport, setUserAgent, goto, waitForSelector, evaluate,
      console_error;
    repeat calls_step; done.
Qed.

Lemma browser_closed_once_witness :
  close_count (@searchManga ecmascript_uri development (serving (page [])) (u "naruto")).1 = 1
  ∧ last (@searchManga ecmascript_uri development (serving (page [])) (u "naruto")).1
    = Some Close.
Proof.
  destruct (@browser_closed_once ecmascript_uri development (serving (page []))
              (u "") (u "naruto") (u "")) as (_ & [Hcount Hlast] & _).
  exact (conj Hcount (Hlast eq_refl)).
Defined.

(** ** The responses of the routes *)

Lemma get_search_response `{UriCodec} (env : process_env) (w : engine) (query : str) :
  (get_search env w query).2 =
  inr match (searchManga env w query).2 with
      | inr results =>
          {| status := 200;
             body := JObject [(u "results", JArray (map SearchResult.to_json results))] |}
      | inl _ =>
          {| status := 500;
             body := JObject [(u "error", JString (u "An error occurred during the search."))] |}
      end.
Proof.
  unfold get_search. rewrite try_catch_run, !bind_run. simpl.
  destruct (searchManga env w query) as [t [e|results]]; done.
Qed.

Lemma get_detail_response (env : process_env) (w : engine) (mangaId : str) :
  (get_detail env w mangaId).2 =
  inr match (scrapeMangaDetails env w (u "https://mangadex.org/title/" ++ mangaId)).2 with
      | inr mangaDetails => {| status := 200; body := MangaDetail.to_json mangaDetails |}
      | inl _ =>
          {| status := 500;
             body := JObject [(u "error",
                               JString (u "An error occurred while fetching manga details."))] |}
      end.
Proof.
  unfold get_detail. rewrite try_catch_run, !bind_run. simpl.
  destruct (scrapeMangaDetails env w _) as [t [e|details]]; done.
Qed.

Lemma get_read_response `{UriCodec} (env : process_env) (w : engine) (chapterId : str) :
  (get_read env w chapterId).2 =
  inr match decodeURIComponent chapterId with
      | Some decodedChapterId =>
          match (getChapterData env w
                   (u "https://mangadex.org/chapter/" ++ decodedChapterId)).2 with
          | inr chapterData => {| status := 200; body := ChapterData.to_json chapterData |}
          | inl _ =>
              {| status := 500;
                 body := JObject
                   [(u "error", JString (u "An error occurred while fetching the chapter."));
                    (u "images", JArray []);
                    (u "prev_chapter", JNull);
                    (u "next_chapter", JNull)] |}
          end
      | None =>
          {| status := 500;
             body := JObject
               [(u "error", JString (u "An error occurred while fetching the chapter."));
                (u "images", JArray []);
                (u "prev_chapter", JNull);
                (u "next_chapter", JNull)] |}
      end.
Proof.
  unfold get_read. rewrite try_catch_run, !bind_run. simpl.
  destruct (decodeURIComponent chapterId) as [d|]; simpl; [|done].
  rewrite bind_run.
  destruct (getChapterData env w _) as [t [e|data]]; done.
Qed.

(** ** C1: the responses to a failed pipeline *)

(** C1: when the read pipeline throws (the identifier cannot be decoded,
    or [getChapterData] throws), the read route answers 500 with exactly
    an error message, [images] empty, and [prev_chapter] and
    [next_chapter] null; when [searchManga] or [scrapeMangaDetails] throws,
    the search and detail routes answer 500 with an error message and
    nothing else. *)
Theorem failed_pipeline_responses `{UriCodec} (env : process_env) (w : engine)
    (chapterId query mangaId : str) :
  ((∀ decodedChapterId, decodeURIComponent chapterId = Some decodedChapterId →
      ∃ error, (getChapterData env w
                  (u "https://mangadex.org/chapter/" ++ decodedChapterId)).2 = inl error) →
   (get_read env w chapterId).2 =
   inr {| status := 500;
          body := JObject
            [(u "error", JString (u "An error occurred while fetching the chapter."));
             (u "images", JArray []);
             (u "prev_chapter", JNull);
             (u "next_chapter", JNull)] |})
  ∧ ((∃ error, (searchManga env w query).2 = inl error) →
     (get_search env w query).2 =
     inr {| status := 500;
            body := JObject [(u "error", JString (u "An error occurred during the search."))] |})
  ∧ ((∃ error, (scrapeMangaDetails env w (u "https://mangadex.org/title/" ++ mangaId)).2
               = inl error) →
     (get_detail env w mangaId).2 =
     inr {| status := 500;
            body := JObject [(u "error",
                              JString (u "An error occurred while fetching manga details."))] |}).
Proof.
  split; [|split].
  - intros Hthrows. rewrite get_read_response.
    destruct (decodeURIComponent chapterId) as [d|]; [|done].
    destruct (Hthrows d eq_refl) as [e ->]. done.
  - intros [e He]. by rewrite get_search_response, He.
  - intros [e He]. by rewrite get_detail_response, He.
Qed.

Lemma failed_pipeline_responses_witness :
  (@get_read ecmascript_uri development (serving (page [])) (u "abc123")).2 =
  inr {| status := 500;
         body := JObject
           [(u "error", JString (u "An error occurred while fetching the chapter."));
            (u "images", JArray []);
            (u "prev_chapter", JNull);
            (u "next_chapter", JNull)] |}
  ∧ (@get_search ecmascript_uri development (serving (page [])) (u "naruto")).2 =
    inr {| status := 500;
           body := JObject [(u "error", JString (u "An error occurred during the search."))] |}
  ∧ (get_detail development (serving (page [])) (u "some-id")).2 =
    inr {| status := 500;
           body := JObject [(u "error",
                             JString (u "An error occurred while fetching manga details."))] |}.
Proof.
  destruct (@failed_pipeline_responses ecmascript_uri development (serving (page []))
              (u "abc123") (u "naruto") (u "some-id")) as (Hr & Hs & Hd).
  refine (conj (Hr _) (conj (Hs _) (Hd _))).
  - intros d Hd'. vm_compute in Hd'. injection Hd' as <-. eexists. vm_compute. reflexivity.
  - eexists. vm_compute. reflexivity.
  - eexists. vm_compute. reflexivity.
Defined.

(** ** Pipelines that return *)

Lemma bind_returns {A B} (m : M A) (f : A → M B) (b : B) :
  (m ≫= f).2 = inr b → ∃ a, m.2 = inr a ∧ (f a).2 = inr b.
Proof.
  rewrite bind_run. destruct m as [t [e|a]]; [done|].
  intros Hb. by exists a.
Qed.

Lemma rethrow_returns {A} (body : M A) (handler : str → M A) (a : A) :
  (∀ e, ∃ e', (handler e).2 = inl e') →
  (try_catch body handler).2 = inr a → body.2 = inr a.
Proof.
  intros Hh. rewrite try_catch_run. destruct body as [t [e|a']]; [|done].
  simpl. destruct (Hh e) as [e' ->]. done.
Qed.

Lemma session_returns {A} (env : process_env) (w : engine) (body : M A)
    (handler : str → M A) (a : A) :
  (∀ e, ∃ e', (handler e).2 = inl e') →
  (launchBrowser env w ≫= λ _, try_catch_finally body handler (browser_close w)).2 = inr a →
  body.2 = inr a.
Proof.
  intros Hh. rewrite session_run.
  destruct (browser_launched env w); [|done]. cbn [snd].
  destruct (close_fault w); [done|].
  by apply rethrow_returns.
Qed.

Lemma searchManga_returns `{UriCodec} (env : process_env) (w : engine)
    (searchTerm : str) (results : list SearchResult.t) :
  (searchManga env w searchTerm).2 = inr results →
  ∃ encoded doc,
    encodeURIComponent searchTerm = Some encoded
    ∧ goto_result w (u "https://mangadex.org/search?q=" ++ encoded) = inr doc
    ∧ is_Some (document_querySelector (u ".manga-card") doc)
    ∧ results = searchManga_evaluate doc.
Proof.
  intros Hr. apply session_returns in Hr; [|by eexists].
  apply bind_returns in Hr as (? & _ & Hr).
  apply bind_returns in Hr as (? & _ & Hr).
  apply bind_returns in Hr as (? & _ & Hr).
  apply bind_returns in Hr as (encoded & Henc & Hr).
  apply bind_returns in Hr as (doc & Hdoc & Hr).
  apply bind_returns in Hr as (? & Hsel & Hr).
  apply bind_returns in Hr as (res & Hres & Hr).
  exists encoded, doc.
  unfold uri_call in Henc. destruct (encodeURIComponent searchTerm) as [enc|]; [|done].
  injection Henc as ->.
  simpl in Hdoc, Hsel, Hres, Hr.
  destruct (document_querySelector _ doc) as [card|]; [|done].
  destruct (evaluate_fault w); [done|].
  injection Hres as <-. injection Hr as <-.
  eauto.
Qed.

(** ** C6: a search page without cards *)

Ltac unfold_calls :=
  unfold newPage, setViewport, setUserAgent, goto, waitForSelector, evaluate,
    browser_close, console_error, delay, res_json, uri_call, call, throw, fault;
  unfold mbind, M_bind, mret, M_ret.

(** Case analysis on what the engine answers, call after call. *)
Ltac engine_cases :=
  repeat match goal with
    | |- context [match ?f ?w with _ => _ end] =>
        lazymatch type of w with engine => destruct (f w) eqn:? end
    | |- context [match goto_result ?w ?url with _ => _ end] =>
        destruct (goto_result w url) eqn:?
    | |- context [match document_querySelector ?sel ?doc with _ => _ end] =>
        destruct (document_querySelector sel doc) eqn:?
    end;
  cbn -[u user_agent searchManga_evaluate scrapeMangaDetails_evaluate
        getChapterData_evaluate].

(** C6, as stated, fails: on a page with no [.manga-card] element the wait
    for that selector times out, and the search route answers 500. *)
Lemma cardless_search_is_an_error :
  document_querySelectorAll (u ".manga-card") (page []) = []
  ∧ (@get_search ecmascript_uri development (serving (page [])) (u "naruto")).2 =
    inr {| status := 500;
           body := JObject [(u "error", JString (u "An error occurred during the search."))] |}
  ∧ (@get_search ecmascript_uri development (serving (page [])) (u "naruto")).2 ≠
    inr {| status := 200; body := JObject [(u "results", JArray [])] |}.
Proof. repeat split; by vm_compute. Qed.

(** C6, amended: for every search request against an upstream page with
    no [.manga-card] element the search route answers 500 with the search
    error message and the page is never evaluated; and when the request
    gets as far as that page (a browser is launched, the page is set up,
    the search term is encoded and the navigation settles), the wait for
    [.manga-card] is made and times out: its error is the one the pipeline
    logs. *)
Theorem search_without_cards `{UriCodec} (env : process_env) (w : engine) (query : str) :
  (∀ encoded doc,
     encodeURIComponent query = Some encoded →
     goto_result w (u "https://mangadex.org/search?q=" ++ encoded) = inr doc →
     document_querySelectorAll (u ".manga-card") doc = []) →
  (get_search env w query).2 =
  inr {| status := 500;
         body := JObject [(u "error", JString (u "An error occurred during the search."))] |}
  ∧ (Evaluate ∉ (get_search env w query).1)
  ∧ (∀ encoded doc,
       browser_launched env w = true →
       newPage_fault w = None → setViewport_fault w = None → setUserAgent_fault w = None →
       encodeURIComponent query = Some encoded →
       goto_result w (u "https://mangadex.org/search?q=" ++ encoded) = inr doc →
       WaitForSelector (u ".manga-card") 30000 ∈ (get_search env w query).1
       ∧ ConsoleError (u "Error searching manga:") (selector_timeout w (u ".manga-card"))
           ∈ (get_search env w query).1).
Proof.
  intros Hnone.
  assert (Hsel : ∀ encoded doc,
            encodeURIComponent query = Some encoded →
            goto_result w (u "https://mangadex.org/search?q=" ++ encoded) = inr doc →
            document_querySelector (u ".manga-card") doc = None).
  { intros encoded doc Henc Hdoc. unfold document_querySelector.
    by rewrite (Hnone encoded doc Henc Hdoc). }
  split; [|split].
  - rewrite get_search_response.
    destruct (searchManga env w query).2 as [e|results] eqn:Hr; [done|].
    apply searchManga_returns in Hr as (encoded & doc & Henc & Hdoc & [card Hcard] & _).
    by rewrite (Hsel encoded doc Henc Hdoc) in Hcard.
  - unfold get_search, searchManga. rewrite session_run.
    destruct (browser_launched env w), (production env);
      rewrite !try_catch_run; unfold_calls;
      destruct (encodeURIComponent query) as [encoded|] eqn:Henc;
      engine_cases;
      try (rewrite (Hsel encoded _ eq_refl ltac:(eassumption)) in *; discriminate);
      intros Hin;
      repeat (apply elem_of_cons in Hin as [Hin|Hin]; [discriminate|]);
      by apply elem_of_nil in Hin.
  - intros encoded doc Hl Hp Hv Hu Henc Hdoc.
    unfold get_search, searchManga. rewrite session_run, Hl.
    rewrite !try_catch_run. unfold_calls.
    rewrite Hp, Hv, Hu, Henc. cbn -[u user_agent]. rewrite Hdoc. cbn -[u user_agent].
    rewrite (Hsel encoded doc Henc Hdoc).
    destruct (close_fault w); cbn -[u user_agent];
      split; repeat first [ apply list_elem_of_here | apply list_elem_of_further ].
Qed.

Lemma search_without_cards_witness :
  (@get_search ecmascript_uri staging (serving_quietly (page [])) (u "one piece")).2 =
  inr {| status := 500;
         body := JObject [(u "error", JString (u "An error occurred during the search."))] |}
  ∧ (Evaluate ∉ (@get_search ecmascript_uri staging (serving_quietly (page []))
                   (u "one piece")).1)
  ∧ WaitForSelector (u ".manga-card") 30000
      ∈ (@get_search ecmascript_uri staging (serving_quietly (page [])) (u "one piece")).1
  ∧ ConsoleError (u "Error searching manga:") (u "TimeoutError")
      ∈ (@get_search ecmascript_uri staging (serving_quietly (page [])) (u "one piece")).1.
Proof.
  destruct (@search_without_cards ecmascript_uri staging (serving_quietly (page []))
              (u "one piece")) as (Hresp & Hnever & Hwait).
  - intros encoded doc _ Hdoc. injection Hdoc as <-. reflexivity.
  - destruct (Hwait (u "one%20piece") (page []) eq_refl eq_refl eq_refl eq_refl
                eq_refl eq_refl) as [Hw Hlog].
    exact (conj Hresp (conj Hnever (conj Hw Hlog))).
Defined.

(** ** C8: the search pipeline is a function of the rendered document *)

(** C8: two runs of the search pipeline for the same query that both
    return, on the same rendered document, return the same results, one
    per [.manga-card] in document order, and the search route sends the
    same JSON; the process environment and everything else about the
    engine may differ between the runs. *)
Theorem search_deterministic `{UriCodec} (env1 env2 : process_env) (w1 w2 : engine)
    (query encoded : str) (doc : document) (results1 results2 : list SearchResult.t) :
  encodeURIComponent query = Some encoded →
  goto_result w1 (u "https://mangadex.org/search?q=" ++ encoded) = inr doc →
  goto_result w2 (u "https://mangadex.org/search?q=" ++ encoded) = inr doc →
  (searchManga env1 w1 query).2 = inr results1 →
  (searchManga env2 w2 query).2 = inr results2 →
  results1 = results2
  ∧ results1 = map searchManga_card (document_querySelectorAll (u ".manga-card") doc)
  ∧ (get_search env1 w1 query).2 = (get_search env2 w2 query).2
  ∧ (get_search env1 w1 query).2 =
    inr {| status := 200;
           body := JObject [(u "results", JArray (map SearchResult.to_json results1))] |}.
Proof.
  intros Henc Hdoc1 Hdoc2 Hr1 Hr2.
  rewrite !get_search_response, Hr1, Hr2.
  apply searchManga_returns in Hr1 as (enc1 & doc1 & Henc1 & Hd1 & _ & ->).
  apply searchManga_returns in Hr2 as (enc2 & doc2 & Henc2 & Hd2 & _ & ->).
  assert (enc1 = encoded) as -> by congruence.
  assert (enc2 = encoded) as -> by congruence.
  assert (doc1 = doc) as -> by congruence.
  assert (doc2 = doc) as -> by congruence.
  done.
Qed.

Lemma search_deterministic_witness :
  (@get_search ecmascript_uri development (serving one_card_page) (u "abc")).2
  = (@get_search ecmascript_uri staging (serving_quietly one_card_page) (u "abc")).2
  ∧ (@get_search ecmascript_uri development (serving one_card_page) (u "abc")).2 =
    inr {| status := 200;
           body := JObject [(u "results",
                             JArray (map SearchResult.to_json
                                       (searchManga_evaluate one_card_page)))] |}.
Proof.
  destruct (@search_deterministic ecmascript_uri development staging
              (serving one_card_page) (serving_quietly one_card_page)
              (u "abc") (u "abc") one_card_page
              (searchManga_evaluate one_card_page) (searchManga_evaluate one_card_page))
    as (_ & _ & Hroute & Hbody); try reflexivity.
  exact (conj Hroute Hbody).
Defined.

(** ** C9: the upstream urls of the read and detail routes *)

Lemma ret_bind {A B} (a : A) (f : A → M B) : mret a ≫= f = f a.
Proof. rewrite bind_run. simpl. by destruct (f a). Qed.

Lemma calls_try_catch_finally {A} (P : event → Prop) (body : M A)
    (handler : str → M A) (finalizer : M unit) :
  calls P (try_catch body handler) → calls P finalizer →
  calls P (try_catch_finally body handler finalizer).
Proof.
  unfold calls, try_catch_finally. intros Hb Hf.
  destruct (try_catch body handler) as [t r], finalizer as [t' [e|[]]]; simpl in *;
    by apply Forall_app.
Qed.

Lemma calls_launchBrowser (P : event → Prop) (env : process_env) (w : engine) :
  (∀ path, P (Launch path)) → calls P (launchBrowser env w).
Proof.
  intros HP. rewrite launchBrowser_run. unfold calls.
  destruct (production env); simpl; by repeat constructor.
Qed.

Ltac navigation_steps :=
  unfold newPage, setViewport, setUserAgent, goto, waitForSelector, evaluate,
    browser_close, console_error, delay, res_json;
  repeat first
    [ apply calls_launchBrowser; intros ?
    | apply calls_try_catch_finally
    | calls_step ];
  try (intros ? ? [=]; done).

Lemma getChapterData_navigation (env : process_env) (w : engine) (chapterUrl : str) :
  calls (navigates_to chapterUrl) (getChapterData env w chapterUrl).
Proof. unfold getChapterData. navigation_steps. Qed.

Lemma scrapeMangaDetails_navigation (env : process_env) (w : engine) (mangaUrl : str) :
  calls (navigates_to mangaUrl) (scrapeMangaDetails env w mangaUrl).
Proof. unfold scrapeMangaDetails. navigation_steps. Qed.

Lemma elem_of_bind_l {A B} (ev : event) (m : M A) (f : A → M B) :
  ev ∈ m.1 → ev ∈ (m ≫= f).1.
Proof.
  rewrite bind_run. destruct m as [t [e|a]]; [done|]. simpl.
  intros. apply elem_of_app. by left.
Qed.

Lemma elem_of_bind_r {A B} (ev : event) (m : M A) (f : A → M B) (a : A) :
  m.2 = inr a → ev ∈ (f a).1 → ev ∈ (m ≫= f).1.
Proof.
  rewrite bind_run. destruct m as [t [e|a']]; [done|]. simpl.
  intros [= ->] ?. apply elem_of_app. by right.
Qed.

Lemma elem_of_try_catch {A} (ev : event) (body : M A) (handler : str → M A) :
  ev ∈ body.1 → ev ∈ (try_catch body handler).1.
Proof.
  rewrite try_catch_run. destruct body as [t [e|a]]; [|done]. simpl.
  intros. apply elem_of_app. by left.
Qed.

Lemma elem_of_session {A} (ev : event) (env : process_env) (w : engine) (body : M A)
    (handler : str → M A) :
  browser_launched env w = true →
  ev ∈ body.1 →
  ev ∈ (launchBrowser env w ≫= λ _, try_catch_finally body handler (browser_close w)).1.
Proof.
  intros Hl Hev. rewrite session_run, Hl. simpl.
  apply elem_of_cons; right. apply elem_of_app; left.
  by apply elem_of_try_catch.
Qed.

Ltac reach_goto Hp Hv Hu :=
  apply elem_of_session; [done|];
  unfold newPage, setViewport, setUserAgent, goto, call;
  rewrite Hp, Hv, Hu;
  do 3 (eapply elem_of_bind_r; [reflexivity|]);
  apply elem_of_bind_l; simpl; apply list_elem_of_singleton; reflexivity.

Lemma getChapterData_goes (env : process_env) (w : engine) (chapterUrl : str) :
  browser_launched env w = true →
  newPage_fault w = None → setViewport_fault w = None → setUserAgent_fault w = None →
  Goto chapterUrl 60000 ∈ (getChapterData env w chapterUrl).1.
Proof. intros Hl Hp Hv Hu. unfold getChapterData. reach_goto Hp Hv Hu. Qed.

Lemma scrapeMangaDetails_goes (env : process_env) (w : engine) (mangaUrl : str) :
  browser_launched env w = true →
  newPage_fault w = None → setViewport_fault w = None → setUserAgent_fault w = None →
  Goto mangaUrl 60000 ∈ (scrapeMangaDetails env w mangaUrl).1.
Proof. intros Hl Hp Hv Hu. unfold scrapeMangaDetails. reach_goto Hp Hv Hu. Qed.

(** C9: every navigation of the read route goes to the chapter url
    template applied to [decodeURIComponent(chapterId)] (and there is none
    when decoding throws), while every navigation of the detail route goes
    to the title url template applied to [mangaId] as it is; when a browser
    is launched and a page is set up, these navigations do take place. *)
Theorem upstream_urls `{UriCodec} (env : process_env) (w : engine)
    (chapterId mangaId : str) :
  (∀ url timeout,
     Goto url timeout ∈ (get_read env w chapterId).1 →
     ∃ decodedChapterId,
       decodeURIComponent chapterId = Some decodedChapterId
       ∧ url = u "https://mangadex.org/chapter/" ++ decodedChapterId)
  ∧ (∀ url timeout,
       Goto url timeout ∈ (get_detail env w mangaId).1 →
       url = u "https://mangadex.org/title/" ++ mangaId)
  ∧ (browser_launched env w = true →
     newPage_fault w = None → setViewport_fault w = None → setUserAgent_fault w = None →
     (∀ decodedChapterId,
        decodeURIComponent chapterId = Some decodedChapterId →
        Goto (u "https://mangadex.org/chapter/" ++ decodedChapterId) 60000
          ∈ (get_read env w chapterId).1)
     ∧ Goto (u "https://mangadex.org/title/" ++ mangaId) 60000
         ∈ (get_detail env w mangaId).1).
Proof.
  split; [|split].
  - intros url timeout Hev. unfold get_read in Hev.
    destruct (decodeURIComponent chapterId) as [d|] eqn:Hd.
    + exists d. split; [done|].
      assert (Hc : calls (navigates_to (u "https://mangadex.org/chapter/" ++ d))
                     (get_read env w chapterId)).
      { unfold get_read. rewrite Hd.
        apply calls_try_catch; [|intros e; navigation_steps].
        apply calls_bind; [navigation_steps|intros _].
        unfold uri_call. rewrite ret_bind.
        apply calls_bind; [apply getChapterData_navigation|intros data].
        navigation_steps. }
      unfold calls, get_read in Hc. rewrite Hd in Hc.
      rewrite Forall_forall in Hc. by eapply Hc.
    + exfalso. vm_compute in Hev.
      repeat (apply elem_of_cons in Hev as [Hev|Hev]; [done|]).
      by apply elem_of_nil in Hev.
  - intros url timeout Hev.
    assert (Hc : calls (navigates_to (u "https://mangadex.org/title/" ++ mangaId))
                   (get_detail env w mangaId)).
    { unfold get_detail.
      apply calls_try_catch; [|intros e; navigation_steps].
      apply calls_bind; [navigation_steps|intros _].
      apply calls_bind; [apply scrapeMangaDetails_navigation|intros details].
      navigation_steps. }
    unfold calls in Hc. rewrite Forall_forall in Hc. by eapply Hc.
  - intros Hl Hp Hv Hu. split.
    + intros d Hd. unfold get_read. rewrite Hd.
      apply elem_of_try_catch.
      eapply elem_of_bind_r; [reflexivity|].
      unfold uri_call. rewrite ret_bind.
      apply elem_of_bind_l. by apply getChapterData_goes.
    + unfold get_detail.
      apply elem_of_try_catch.
      eapply elem_of_bind_r; [reflexivity|].
      apply elem_of_bind_l. by apply scrapeMangaDetails_goes.
Qed.

Lemma upstream_urls_witness :
  Goto (u "https://mangadex.org/chapter/a/b") 60000
    ∈ (@get_read ecmascript_uri development (serving rendered_chapter_page) (u "a%2Fb")).1
  ∧ Goto (u "https://mangadex.org/title/a%2Fb") 60000
      ∈ (get_detail development (serving rendered_chapter_page) (u "a%2Fb")).1.
Proof.
  destruct (@upstream_urls ecmascript_uri development (serving rendered_chapter_page)
              (u "a%2Fb") (u "a%2Fb")) as (_ & _ & Hgo).
  destruct (Hgo eq_refl eq_refl eq_refl eq_refl) as [Hread Hdetail].
  exact (conj (Hread (u "a/b") eq_refl) Hdetail).
Defined.

(** * Further properties *)

#[local] Set Warnings "-clear-no-such-hyp".

(** ** The order of the engine calls *)

Lemma engine_calls_app (t t' : list event) :
  engine_calls (t ++ t') = engine_calls t ++ engine_calls t'.
Proof. unfold engine_calls. apply List.filter_app. Qed.

Ltac prefix_of_length n :=
  exists n; split; [reflexivity | first [ lia | intros _; eauto ] ].

Ltac choose_prefix :=
  first [ prefix_of_length 1 | prefix_of_length 2 | prefix_of_length 3
        | prefix_of_length 4 | prefix_of_length 5 | prefix_of_length 6 ].

Ltac search_prefix n encoded :=
  exists n, (u "https://mangadex.org/search?q=" ++ encoded);
  split; [reflexivity | split; [ first [ lia | intros _; eauto ] | first [ lia | intros _; eauto ] ] ].

Lemma getChapterData_script (env : process_env) (w : engine) (chapterUrl : str) :
  browser_launched env w = true →
  ∃ n : nat,
    engine_calls (getChapterData env w chapterUrl).1 =
    Launch (or_null (CHROME_PATH env))
      :: take n (page_script chapterUrl (u ".page-container")) ++ [Close]
    ∧ (6 ≤ n → ∃ doc, goto_result w chapterUrl = inr doc
                     ∧ is_Some (document_querySelector (u ".page-container") doc)).
Proof.
  intros Hl. unfold getChapterData. rewrite session_run, Hl. cbn [fst].
  rewrite try_catch_run. unfold page_script. unfold_calls.
  engine_cases; choose_prefix.
Qed.

Lemma scrapeMangaDetails_script (env : process_env) (w : engine) (mangaUrl : str) :
  browser_launched env w = true →
  ∃ n : nat,
    engine_calls (scrapeMangaDetails env w mangaUrl).1 =
    Launch (or_null (CHROME_PATH env))
      :: take n (page_script mangaUrl (u ".manga-container")) ++ [Close]
    ∧ (6 ≤ n → ∃ doc, goto_result w mangaUrl = inr doc
                     ∧ is_Some (document_querySelector (u ".manga-container") doc)).
Proof.
  intros Hl. unfold scrapeMangaDetails. rewrite session_run, Hl. cbn [fst].
  rewrite try_catch_run. unfold page_script. unfold_calls.
  engine_cases; choose_prefix.
Qed.

Lemma searchManga_script `{UriCodec} (env : process_env) (w : engine) (searchTerm : str) :
  browser_launched env w = true →
  ∃ (n : nat) (searchUrl : str),
    engine_calls (searchManga env w searchTerm).1 =
    Launch (or_null (CHROME_PATH env))
      :: take n (page_script searchUrl (u ".manga-card")) ++ [Close]
    ∧ (4 ≤ n → ∃ encoded, encodeURIComponent searchTerm = Some encoded
                         ∧ searchUrl = u "https://mangadex.org/search?q=" ++ encoded)
    ∧ (6 ≤ n → ∃ doc, goto_result w searchUrl = inr doc
                     ∧ is_Some (document_querySelector (u ".manga-card") doc)).
Proof.
  intros Hl. unfold searchManga. rewrite session_run, Hl. cbn [fst].
  rewrite try_catch_run. unfold page_script. unfold_calls.
  destruct (encodeURIComponent searchTerm) as [encoded|] eqn:Henc.
  - engine_cases;
      first [ search_prefix 1 encoded | search_prefix 2 encoded | search_prefix 3 encoded
            | search_prefix 4 encoded | search_prefix 5 encoded | search_prefix 6 encoded ].
  - engine_cases;
      first [ search_prefix 1 (@nil N) | search_prefix 2 (@nil N)
            | search_prefix 3 (@nil N) ].
Qed.

(** X1: In each pipeline the calls on a launched browser are an initial part of
    one fixed script (new page, viewport 1280x800, user agent, navigation
    with a 60 s timeout, wait for the readiness selector with a 30 s
    timeout, evaluation), followed by the one [close]; the evaluation is
    reached only on a document in which the readiness selector matched, and
    the search navigation only with an encoded search term. *)
Theorem engine_calls_follow_script `{UriCodec} (env : process_env) (w : engine)
    (mangaUrl searchTerm chapterUrl : str) :
  browser_launched env w = true →
  (∃ n : nat,
     engine_calls (scrapeMangaDetails env w mangaUrl).1 =
     Launch (or_null (CHROME_PATH env))
       :: take n (page_script mangaUrl (u ".manga-container")) ++ [Close]
     ∧ (6 ≤ n → ∃ doc, goto_result w mangaUrl = inr doc
                      ∧ is_Some (document_querySelector (u ".manga-container") doc)))
  ∧ (∃ (n : nat) (searchUrl : str),
       engine_calls (searchManga env w searchTerm).1 =
       Launch (or_null (CHROME_PATH env))
         :: take n (page_script searchUrl (u ".manga-card")) ++ [Close]
       ∧ (4 ≤ n → ∃ encoded, encodeURIComponent searchTerm = Some encoded
                            ∧ searchUrl = u "https://mangadex.org/search?q=" ++ encoded)
       ∧ (6 ≤ n → ∃ doc, goto_result w searchUrl = inr doc
                        ∧ is_Some (document_querySelector (u ".manga-card") doc)))
  ∧ (∃ n : nat,
       engine_calls (getChapterData env w chapterUrl).1 =
       Launch (or_null (CHROME_PATH env))
         :: take n (page_script chapterUrl (u ".page-container")) ++ [Close]
       ∧ (6 ≤ n → ∃ doc, goto_result w chapterUrl = inr doc
                        ∧ is_Some (document_querySelector (u ".page-container") doc))).
Proof.
  intros Hl. split; [|split].
  - by apply scrapeMangaDetails_script.
  - by apply searchManga_script.
  - by apply getChapterData_script.
Qed.

Lemma engine_calls_follow_script_witness :
  ∃ n : nat,
    engine_calls (getChapterData development (serving (page [])) (u "https://x/")).1 =
    Launch None :: take n (page_script (u "https://x/") (u ".page-container")) ++ [Close].
Proof.
  destruct (@engine_calls_follow_script ecmascript_uri development (serving (page []))
              (u "") (u "") (u "https://x/") eq_refl) as (_ & _ & n & Hn & _).
  exact (ex_intro _ n Hn).
Defined.

(** ** When a pipeline returns *)

Lemma getChapterData_returns_iff (env : process_env) (w : engine) (chapterUrl : str)
    (chapterData : ChapterData.t) :
  (getChapterData env w chapterUrl).2 = inr chapterData ↔
  browser_launched env w = true ∧ fault_free w
  ∧ ∃ doc, goto_result w chapterUrl = inr doc
           ∧ is_Some (document_querySelector (u ".page-container") doc)
           ∧ chapterData = getChapterData_evaluate doc.
Proof.
  unfold getChapterData, fault_free. rewrite session_run.
  destruct (browser_launched env w); [|naive_solver]. cbn [snd].
  rewrite try_catch_run. unfold_calls.
  engine_cases; split; try naive_solver.
  intros (_ & _ & doc & ? & [card ?] & _). simplify_eq.
Qed.

Lemma scrapeMangaDetails_returns_iff (env : process_env) (w : engine) (mangaUrl : str)
    (mangaDetails : MangaDetail.t) :
  (scrapeMangaDetails env w mangaUrl).2 = inr mangaDetails ↔
  browser_launched env w = true ∧ fault_free w
  ∧ ∃ doc, goto_result w mangaUrl = inr doc
           ∧ is_Some (document_querySelector (u ".manga-container") doc)
           ∧ mangaDetails = scrapeMangaDetails_evaluate doc.
Proof.
  unfold scrapeMangaDetails, fault_free. rewrite session_run.
  destruct (browser_launched env w); [|naive_solver]. cbn [snd].
  rewrite try_catch_run. unfold_calls.
  engine_cases; split; try naive_solver.
  intros (_ & _ & doc & ? & [card ?] & _). simplify_eq.
Qed.

Lemma searchManga_returns_iff `{UriCodec} (env : process_env) (w : engine)
    (searchTerm : str) (results : list SearchResult.t) :
  (searchManga env w searchTerm).2 = inr results ↔
  browser_launched env w = true ∧ fault_free w
  ∧ ∃ encoded doc,
      encodeURIComponent searchTerm = Some encoded
      ∧ goto_result w (u "https://mangadex.org/search?q=" ++ encoded) = inr doc
      ∧ is_Some (document_querySelector (u ".manga-card") doc)
      ∧ results = searchManga_evaluate doc.
Proof.
  unfold searchManga, fault_free. rewrite session_run.
  destruct (browser_launched env w); [|naive_solver]. cbn [snd].
  rewrite try_catch_run. unfold_calls.
  destruct (encodeURIComponent searchTerm) as [encoded|] eqn:Henc;
    engine_cases; split; try naive_solver.
  all: intros (_ & _ & enc & doc & ? & ? & [card ?] & ?); congruence.
Qed.

Lemma querySelector_is_Some (sel : str) (doc : document) :
  is_Some (document_querySelector sel doc) ↔ document_querySelectorAll sel doc ≠ [].
Proof.
  unfold document_querySelector.
  destruct (document_querySelectorAll sel doc); simpl; split; try done.
Qed.

(** X2: The search route answers 200 exactly when a browser is launched, no
    call faults, the search term can be encoded and the page served for it
    holds at least one [.manga-card]; the results are then one object per
    card, in document order, so a 200 answer never has an empty result
    list. *)
Theorem search_answers_200_iff `{UriCodec} (env : process_env) (w : engine)
    (query : str) (b : json) :
  (get_search env w query).2 = inr {| status := 200; body := b |} ↔
  browser_launched env w = true ∧ fault_free w
  ∧ ∃ encoded doc,
      encodeURIComponent query = Some encoded
      ∧ goto_result w (u "https://mangadex.org/search?q=" ++ encoded) = inr doc
      ∧ document_querySelectorAll (u ".manga-card") doc ≠ []
      ∧ b = JObject
              [(u "results",
                JArray (map SearchResult.to_json
                          (map searchManga_card
                             (document_querySelectorAll (u ".manga-card") doc))))].
Proof.
  rewrite get_search_response.
  destruct (searchManga env w query).2 as [e|results] eqn:Hr.
  - split; [done|].
    intros (Hl & Hf & encoded & doc & Henc & Hdoc & Hcards%querySelector_is_Some & _).
    assert ((searchManga env w query).2 = inr (searchManga_evaluate doc)) as Hok.
    { apply searchManga_returns_iff. eauto 10. }
    congruence.
  - apply searchManga_returns_iff in Hr
      as (Hl & Hf & encoded & doc & Henc & Hdoc & Hcards%querySelector_is_Some & ->).
    split.
    + intros [= <-]. eauto 10.
    + intros (_ & _ & encoded' & doc' & Henc' & Hdoc' & _ & ->).
      assert (encoded' = encoded) as -> by congruence.
      assert (doc' = doc) as -> by congruence.
      done.
Qed.

Lemma search_answers_200_iff_witness :
  (@get_search ecmascript_uri development (serving one_card_page) (u "abc")).2 =
  inr {| status := 200;
         body := JObject
           [(u "results",
             JArray (map SearchResult.to_json
                       (map searchManga_card
                          (document_querySelectorAll (u ".manga-card") one_card_page))))] |}.
Proof.
  apply (@search_answers_200_iff ecmascript_uri).
  refine (conj eq_refl (conj _ _)).
  - repeat split.
  - exists (u "abc"), one_card_page. repeat split. discriminate.
Defined.

(** X3: The read route answers 200 exactly when the chapter id can be decoded,
    a browser is launched, no call faults and the page served for the
    decoded id holds a [.page-container]; the body is then the extraction
    of that page. *)
Theorem read_answers_200_iff `{UriCodec} (env : process_env) (w : engine)
    (chapterId : str) (b : json) :
  (get_read env w chapterId).2 = inr {| status := 200; body := b |} ↔
  browser_launched env w = true ∧ fault_free w
  ∧ ∃ decodedChapterId doc,
      decodeURIComponent chapterId = Some decodedChapterId
      ∧ goto_result w (u "https://mangadex.org/chapter/" ++ decodedChapterId) = inr doc
      ∧ is_Some (document_querySelector (u ".page-container") doc)
      ∧ b = ChapterData.to_json (getChapterData_evaluate doc).
Proof.
  rewrite get_read_response.
  destruct (decodeURIComponent chapterId) as [d|] eqn:Hd; [|naive_solver].
  destruct (getChapterData env w _).2 as [e|data] eqn:Hr.
  - split; [done|].
    intros (Hl & Hf & d' & doc & [= <-] & Hdoc & Hsel & _).
    assert ((getChapterData env w (u "https://mangadex.org/chapter/" ++ d)).2
            = inr (getChapterData_evaluate doc)) as Hok.
    { apply getChapterData_returns_iff. eauto 10. }
    congruence.
  - apply getChapterData_returns_iff in Hr as (Hl & Hf & doc & Hdoc & Hsel & ->).
    split.
    + intros [= <-]. eauto 10.
    + intros (_ & _ & d' & doc' & [= <-] & Hdoc' & _ & ->).
      assert (doc' = doc) as -> by congruence.
      done.
Qed.

Lemma read_answers_200_iff_witness :
  (@get_read ecmascript_uri development (serving rendered_chapter_page) (u "a%2Fb")).2 =
  inr {| status := 200;
         body := ChapterData.to_json (getChapterData_evaluate rendered_chapter_page) |}.
Proof.
  apply (@read_answers_200_iff ecmascript_uri).
  refine (conj eq_refl (conj _ _)).
  - repeat split.
  - exists (u "a/b"), rendered_chapter_page. repeat split. by eexists.
Defined.

(** X4: The detail route answers 200 exactly when a browser is launched, no
    call faults and the page served for the id, taken as it is, holds a
    [.manga-container]; the body is then the extraction of that page. *)
Theorem detail_answers_200_iff (env : process_env) (w : engine) (mangaId : str) (b : json) :
  (get_detail env w mangaId).2 = inr {| status := 200; body := b |} ↔
  browser_launched env w = true ∧ fault_free w
  ∧ ∃ doc,
      goto_result w (u "https://mangadex.org/title/" ++ mangaId) = inr doc
      ∧ is_Some (document_querySelector (u ".manga-container") doc)
      ∧ b = MangaDetail.to_json (scrapeMangaDetails_evaluate doc).
Proof.
  rewrite get_detail_response.
  destruct (scrapeMangaDetails env w _).2 as [e|details] eqn:Hr.
  - split; [done|].
    intros (Hl & Hf & doc & Hdoc & Hsel & _).
    assert ((scrapeMangaDetails env w (u "https://mangadex.org/title/" ++ mangaId)).2
            = inr (scrapeMangaDetails_evaluate doc)) as Hok.
    { apply scrapeMangaDetails_returns_iff. eauto 10. }
    congruence.
  - apply scrapeMangaDetails_returns_iff in Hr as (Hl & Hf & doc & Hdoc & Hsel & ->).
    split.
    + intros [= <-]. eauto 10.
    + intros (_ & _ & doc' & Hdoc' & _ & ->).
      assert (doc' = doc) as -> by congruence.
      done.
Qed.

Lemma detail_answers_200_iff_witness :
  (get_detail development (serving rendered_detail_page) (u "a%2Fb")).2 =
  inr {| status := 200;
         body := MangaDetail.to_json (scrapeMangaDetails_evaluate rendered_detail_page) |}.
Proof.
  apply detail_answers_200_iff.
  refine (conj eq_refl (conj _ _)).
  - repeat split.
  - exists rendered_detail_page. repeat split. by eexists.
Defined.

(** ** The errors a pipeline throws *)




(** X6: When a browser was launched and [browser.close()] faults, each pipeline
    throws the error of [close], also when the extraction had succeeded,
    and each route answers 500. *)
Theorem close_fault_replaces_outcome `{UriCodec} (env : process_env) (w : engine)
    (mangaId query chapterId error : str) :
  browser_launched env w = true →
  close_fault w = Some error →
  (∀ url, (scrapeMangaDetails env w url).2 = inl error)
  ∧ (searchManga env w query).2 = inl error
  ∧ (∀ url, (getChapterData env w url).2 = inl error)
  ∧ (∃ b, (get_detail env w mangaId).2 = inr {| status := 500; body := b |})
  ∧ (∃ b, (get_search env w query).2 = inr {| status := 500; body := b |})
  ∧ (∃ b, (get_read env w chapterId).2 = inr {| status := 500; body := b |}).
Proof.
  intros Hl Hc.
  assert (Hd : ∀ url, (scrapeMangaDetails env w url).2 = inl error).
  { intros url. unfold scrapeMangaDetails. by rewrite session_run, Hl, Hc. }
  assert (Hs : (searchManga env w query).2 = inl error).
  { unfold searchManga. by rewrite session_run, Hl, Hc. }
  assert (Hr : ∀ url, (getChapterData env w url).2 = inl error).
  { intros url. unfold getChapterData. by rewrite session_run, Hl, Hc. }
  repeat split; try done.
  - rewrite get_detail_response, Hd. by eexists.
  - rewrite get_search_response, Hs. by eexists.
  - rewrite get_read_response.
    destruct (decodeURIComponent chapterId); [rewrite Hr|]; by eexists.
Qed.

Lemma close_fault_replaces_outcome_witness :
  (getChapterData development (failing_close rendered_chapter_page)
     (u "https://mangadex.org/chapter/1")).2 = inl (u "Protocol error")
  ∧ ∃ b, (@get_read ecmascript_uri development (failing_close rendered_chapter_page)
            (u "1")).2 = inr {| status := 500; body := b |}.
Proof.
  destruct (@close_fault_replaces_outcome ecmascript_uri development
              (failing_close rendered_chapter_page) (u "") (u "") (u "1")
              (u "Protocol error") eq_refl eq_refl) as (_ & _ & Hc & _ & _ & Hr).
  exact (conj (Hc _) Hr).
Defined.

(** ** Requests that never reach a browser *)

Lemma production_pipeline {A} (env : process_env) (w : engine) (body : M A)
    (handler : str → M A) :
  production env = true →
  (launchBrowser env w ≫= λ _, try_catch_finally body handler (browser_close w))
  = ([], inl (u "chrome is not defined")).
Proof.
  intros Hp. rewrite session_run. unfold browser_launched. by rewrite Hp.
Qed.

(** X7: In production mode [launchBrowser] throws before it calls the engine
    ([chrome] is not bound), so no route ever makes an engine call and
    every route answers 500 with its error body. *)
Theorem production_never_launches `{UriCodec} (env : process_env) (w : engine)
    (query chapterId mangaId : str) :
  production env = true →
  (engine_calls (get_search env w query).1 = []
   ∧ (get_search env w query).2 =
     inr {| status := 500;
            body := JObject [(u "error", JString (u "An error occurred during the search."))] |})
  ∧ (engine_calls (get_read env w chapterId).1 = []
     ∧ (get_read env w chapterId).2 =
       inr {| status := 500;
              body := JObject
                [(u "error", JString (u "An error occurred while fetching the chapter."));
                 (u "images", JArray []);
                 (u "prev_chapter", JNull);
                 (u "next_chapter", JNull)] |})
  ∧ (engine_calls (get_detail env w mangaId).1 = []
     ∧ (get_detail env w mangaId).2 =
       inr {| status := 500;
              body := JObject [(u "error",
                                JString (u "An error occurred while fetching manga details."))] |}).
Proof.
  intros Hp. split; [|split].
  - unfold get_search, searchManga. by rewrite production_pipeline.
  - unfold get_read, getChapterData.
    destruct (decodeURIComponent chapterId) as [d|]; [|done].
    unfold uri_call. rewrite (ret_bind d). by rewrite production_pipeline.
  - unfold get_detail, scrapeMangaDetails. by rewrite production_pipeline.
Qed.

Lemma production_never_launches_witness :
  engine_calls (@get_search ecmascript_uri production_env (serving one_card_page)
                  (u "abc")).1 = []
  ∧ (@get_search ecmascript_uri production_env (serving one_card_page) (u "abc")).2 =
    inr {| status := 500;
           body := JObject [(u "error", JString (u "An error occurred during the search."))] |}.
Proof.
  destruct (@production_never_launches ecmascript_uri production_env
              (serving one_card_page) (u "abc") (u "") (u "") eq_refl) as (Hs & _).
  exact Hs.
Defined.

(** X8: A chapter id that [decodeURIComponent] rejects is answered 500 after
    the delay, without any engine call: no browser is launched for it. *)
Theorem undecodable_chapter_id `{UriCodec} (env : process_env) (w : engine)
    (chapterId : str) :
  decodeURIComponent chapterId = None →
  engine_calls (get_read env w chapterId).1 = []
  ∧ head (get_read env w chapterId).1 = Some (Delay 1000)
  ∧ (get_read env w chapterId).2 =
    inr {| status := 500;
           body := JObject
             [(u "error", JString (u "An error occurred while fetching the chapter."));
              (u "images", JArray []);
              (u "prev_chapter", JNull);
              (u "next_chapter", JNull)] |}.
Proof.
  intros Hd. unfold get_read. by rewrite Hd.
Qed.

Lemma undecodable_chapter_id_witness :
  engine_calls (@get_read ecmascript_uri development (serving rendered_chapter_page)
                  (u "100%")).1 = []
  ∧ head (@get_read ecmascript_uri development (serving rendered_chapter_page)
            (u "100%")).1 = Some (Delay 1000)
  ∧ (@get_read ecmascript_uri development (serving rendered_chapter_page) (u "100%")).2 =
    inr {| status := 500;
           body := JObject
             [(u "error", JString (u "An error occurred while fetching the chapter."));
              (u "images", JArray []);
              (u "prev_chapter", JNull);
              (u "next_chapter", JNull)] |}.
Proof.
  exact (@undecodable_chapter_id ecmascript_uri development
           (serving rendered_chapter_page) (u "100%") eq_refl).
Defined.

(** ** What the routes log *)

Lemma session_quiet {A} (env : process_env) (w : engine) (body : M A)
    (handler : str → M A) (a : A) :
  calls (λ ev, is_console_error ev = false) body →
  (∀ e, ∃ e', (handler e).2 = inl e') →
  (launchBrowser env w ≫= λ _, try_catch_finally body handler (browser_close w)).2 = inr a →
  Forall (λ ev, is_console_error ev = false)
    (launchBrowser env w ≫= λ _, try_catch_finally body handler (browser_close w)).1.
Proof.
  unfold calls. intros Hb Hh. rewrite session_run.
  destruct (browser_launched env w); [|done]. cbn [fst snd].
  destruct (close_fault w); [done|].
  rewrite try_catch_run. destruct body as [t [e|a']]; cbn [fst snd] in *.
  { destruct (Hh e) as [e' ->]. done. }
  intros _. constructor; [done|]. apply Forall_app. split; [done|]. by repeat constructor.
Qed.

Ltac unfold_calls_only :=
  unfold newPage, setViewport, setUserAgent, goto, waitForSelector, evaluate,
    console_error.

Ltac quiet_pipeline :=
  apply session_quiet; [unfold_calls_only; repeat calls_step; done | by eexists].

Lemma pipelines_quiet `{UriCodec} (env : process_env) (w : engine) :
  (∀ url a, (scrapeMangaDetails env w url).2 = inr a →
     Forall (λ ev, is_console_error ev = false) (scrapeMangaDetails env w url).1)
  ∧ (∀ term a, (searchManga env w term).2 = inr a →
       Forall (λ ev, is_console_error ev = false) (searchManga env w term).1)
  ∧ (∀ url a, (getChapterData env w url).2 = inr a →
       Forall (λ ev, is_console_error ev = false) (getChapterData env w url).1).
Proof.
  split; [|split]; intros arg a; quiet_pipeline.
Qed.

(** X9: No route handler throws: each one first waits (1500 ms for search,
    1000 ms for read and detail) and then answers, either 200 with nothing
    written to the error console during the whole request, or 500 with a
    last line on the error console under the route's own label. *)
Theorem routes_answer_and_log `{UriCodec} (env : process_env) (w : engine)
    (query chapterId mangaId : str) :
  answered 1500 (u "Search error:") (get_search env w query)
  ∧ answered 1000 (u "Reader error:") (get_read env w chapterId)
  ∧ answered 1000 (u "Manga detail error:") (get_detail env w mangaId).
Proof.
  destruct (pipelines_quiet env w) as (Hqd & Hqs & Hqr).
  unfold answered. split; [|split].
  - specialize (Hqs query). unfold get_search.
    rewrite try_catch_run, !bind_run.
    destruct (searchManga env w query) as [t [e|results]]; cbn -[u] in *.
    + eexists. split; [done|]. split; [done|]. right. split; [done|].
      exists e. rewrite app_comm_cons. apply last_snoc.
    + eexists. split; [done|]. split; [done|]. left. split; [done|].
      rewrite ?app_nil_r.
      constructor; [done|]. by eapply Hqs.
  - unfold get_read. rewrite try_catch_run, !bind_run.
    destruct (decodeURIComponent chapterId) as [d|]; cbn -[u].
    2:{ eexists. split; [done|]. split; [done|]. right. split; [done|]. by eexists. }
    specialize (Hqr (u "https://mangadex.org/chapter/" ++ d)). rewrite !bind_run.
    destruct (getChapterData env w _) as [t [e|data]]; cbn -[u] in *.
    + eexists. split; [done|]. split; [done|]. right. split; [done|].
      exists e. rewrite app_comm_cons. apply last_snoc.
    + eexists. split; [done|]. split; [done|]. left. split; [done|].
      rewrite ?app_nil_r.
      constructor; [done|]. by eapply Hqr.
  - specialize (Hqd (u "https://mangadex.org/title/" ++ mangaId)). unfold get_detail.
    rewrite try_catch_run, !bind_run.
    destruct (scrapeMangaDetails env w _) as [t [e|details]]; cbn -[u] in *.
    + eexists. split; [done|]. split; [done|]. right. split; [done|].
      exists e. rewrite app_comm_cons. apply last_snoc.
    + eexists. split; [done|]. split; [done|]. left. split; [done|].
      rewrite ?app_nil_r.
      constructor; [done|]. by eapply Hqd.
Qed.

(** ** The shape of a parsed identifier *)

Lemma str_match_capture (segment : string) (href id : str) :
  str_match (id_pattern segment) href = Some id →
  ∃ prefix rest,
    href = prefix ++ (u segment ++ u "/") ++ rest
    ∧ no_line_terminator rest = true
    ∧ id = chomp_slash rest.
Proof.
  induction href as [|c href IH]; rewrite str_match_unfold, match_at_id; cbv zeta.
  - destruct (starts_with _ []) eqn:Hs; [|done].
    destruct (no_line_terminator _) eqn:Hlt; [|done].
    intros [= <-]. apply starts_with_inv in Hs.
    exists [], (drop (length (u segment ++ u "/")) []). by repeat split.
  - destruct (starts_with _ (c :: href)) eqn:Hs.
    + destruct (no_line_terminator _) eqn:Hlt.
      * intros [= <-]. apply starts_with_inv in Hs.
        exists [], (drop (length (u segment ++ u "/")) (c :: href)). by repeat split.
      * intros (prefix & rest & -> & Hr)%IH. by exists (c :: prefix), rest.
    + intros (prefix & rest & -> & Hr)%IH. by exists (c :: prefix), rest.
Qed.

Lemma chomp_slash_cases (rest : str) :
  (rest = chomp_slash rest ∧ ends_with_slash rest = false)
  ∨ rest = chomp_slash rest ++ [0x2F%N].
Proof.
  unfold chomp_slash, ends_with_slash.
  destruct (last rest) as [c|] eqn:Hlast; [|by left].
  destruct (N.eqb_spec c 47) as [->|Hc]; [|by left].
  right. apply last_Some in Hlast as [l ->].
  rewrite length_app. simpl.
  replace (length l + 1 - 1) with (length l) by lia.
  by rewrite take_app_length.
Qed.

Lemma no_line_terminator_take (n : nat) (s : str) :
  no_line_terminator s = true → no_line_terminator (take n s) = true.
Proof.
  unfold no_line_terminator. revert n.
  induction s as [|c s IH]; intros [|n]; simpl; try done.
  intros [Hc Hs]%andb_true_iff. rewrite Hc. by apply IH.
Qed.

Lemma capture_shape (segment : string) (href id : str) :
  str_match (id_pattern segment) href = Some id →
  no_line_terminator id = true
  ∧ ∃ prefix,
      (href = prefix ++ (u segment ++ u "/") ++ id ∧ ends_with_slash id = false)
      ∨ href = prefix ++ (u segment ++ u "/") ++ id ++ [0x2F%N].
Proof.
  intros (prefix & rest & -> & Hlt & ->)%str_match_capture. split.
  - unfold chomp_slash. destruct (ends_with_slash rest); [|done].
    by apply no_line_terminator_take.
  - exists prefix.
    destruct (chomp_slash_cases rest) as [[Heq Hs]|Heq].
    + left. by rewrite <- Heq.
    + right. by rewrite <- Heq.
Qed.

(** X10: An identifier that the parsing step takes from an href holds no line
    terminator, and the href ends with [title/<id>] (for chapter links,
    [chapter/<id>]), where the identifier has no trailing slash, or with
    [title/<id>/]; a chapter identifier comes from a non-empty link only. *)
Theorem parsed_id_shape (url id : str) (link : option str) :
  (searchManga_id url = id → id ≠ [] →
   no_line_terminator id = true
   ∧ ∃ prefix,
       (url = prefix ++ u "title/" ++ id ∧ ends_with_slash id = false)
       ∨ url = prefix ++ u "title/" ++ id ++ u "/")
  ∧ (getChapterData_link link = Some id →
     no_line_terminator id = true
     ∧ ∃ prefix href,
         link = Some href
         ∧ ((href = prefix ++ u "chapter/" ++ id ∧ ends_with_slash id = false)
            ∨ href = prefix ++ u "chapter/" ++ id ++ u "/")).
Proof.
  split.
  - unfold searchManga_id, title_re. intros Hid Hne.
    destruct (str_match _ url) as [id'|] eqn:Hm; [|by subst].
    subst id'. by apply capture_shape in Hm.
  - unfold getChapterData_link, chapter_re.
    destruct link as [[|c href]|]; simpl or_null; cbv iota; try done.
    intros (Hlt & prefix & Hshape)%capture_shape.
    split; [done|]. by exists prefix, (c :: href).
Qed.

Lemma parsed_id_shape_witness :
  no_line_terminator (u "a1b2/vol-3") = true
  ∧ ∃ prefix,
      (u "/title/a1b2/vol-3/" = prefix ++ u "title/" ++ u "a1b2/vol-3"
       ∧ ends_with_slash (u "a1b2/vol-3") = false)
      ∨ u "/title/a1b2/vol-3/" = prefix ++ u "title/" ++ u "a1b2/vol-3" ++ u "/".
Proof.
  destruct (parsed_id_shape (u "/title/a1b2/vol-3/") (u "a1b2/vol-3") None) as [Hs _].
  apply Hs; [reflexivity | discriminate].
Defined.

(** ** Text fields are trimmed *)

Lemma trim_start_head (s : str) (c : N) :
  head (trim_start s) = Some c → is_trimmable c = false.
Proof.
  induction s as [|d s IH]; simpl; [done|].
  destruct (is_trimmable d) eqn:Hd; [done|].
  by intros [= <-].
Qed.

Lemma trim_start_suffix (s : str) : ∃ d, s = d ++ trim_start s.
Proof.
  induction s as [|c s [d IH]]; simpl; [by exists []|].
  destruct (is_trimmable c).
  - exists (c :: d). simpl. by f_equal.
  - by exists [].
Qed.

Lemma last_rev (s : str) : last (rev s) = head s.
Proof. destruct s as [|c s]; simpl; [done|]. apply last_snoc. Qed.

Lemma head_rev (s : str) : head (rev s) = last s.
Proof. rewrite <- (rev_involutive s) at 2. symmetry. apply last_rev. Qed.

Lemma trim_trimmed (s : str) : trimmed (trim s).
Proof.
  unfold trimmed, trim. split; intros c.
  - rewrite head_rev.
    destruct (trim_start_suffix (rev (trim_start s))) as [d Hd].
    intros Hlast.
    assert (Hhead : head (trim_start s) = Some c).
    { rewrite <- last_rev, Hd.
      apply last_Some in Hlast as [l ->].
      rewrite app_assoc. apply last_snoc. }
    by eapply trim_start_head.
  - rewrite last_rev. apply trim_start_head.
Qed.

Lemma or_else_trimmed (e : option element) (fallback : str) :
  trimmed fallback → trimmed (or_else (trimmed_text e) fallback).
Proof.
  intros Hf. destruct e as [e|]; simpl; [|done].
  pose proof (trim_trimmed (textContent e)) as Ht.
  by destruct (trim (textContent e)).
Qed.

Ltac literal_trimmed :=
  apply or_else_trimmed; split; intros ? [= <-]; reflexivity.

(** X11: Every text field of every record is free of surrounding whitespace: it
    is a trimmed text content or a fallback. This covers the title, the
    latest chapter and the rating of a search result; the title, the
    description, the author, the rating and every genre of a manga detail;
    the number, the title and the upload date of each of its chapters; and
    the title of a chapter page. *)
Theorem text_fields_trimmed (card : element) (doc : document) :
  let r := searchManga_card card in
  let m := scrapeMangaDetails_evaluate doc in
  let d := getChapterData_evaluate doc in
  (trimmed (SearchResult.title r) ∧ trimmed (SearchResult.latest_chapter r)
   ∧ trimmed (SearchResult.rating r))
  ∧ (trimmed (MangaDetail.title m) ∧ trimmed (MangaDetail.description m)
     ∧ trimmed (MangaDetail.author m) ∧ trimmed (MangaDetail.rating m)
     ∧ Forall trimmed (MangaDetail.genres m)
     ∧ Forall (λ c, trimmed (Chapter.number c) ∧ trimmed (Chapter.title c)
                    ∧ trimmed (Chapter.uploadDate c)) (MangaDetail.chapters m))
  ∧ trimmed (ChapterData.title d).
Proof.
  cbv zeta. split; [|split].
  - repeat split; try literal_trimmed.
    all: apply or_else_trimmed; by split.
  - split; [literal_trimmed|]. split; [literal_trimmed|].
    split; [literal_trimmed|]. split; [literal_trimmed|]. split.
    + unfold scrapeMangaDetails_evaluate; simpl.
      apply Forall_forall. intros g (el & -> & _)%list_elem_of_fmap.
      apply trim_trimmed.
    + unfold scrapeMangaDetails_evaluate; simpl.
      apply Forall_forall. intros c (el & -> & _)%list_elem_of_fmap.
      unfold scrapeMangaDetails_chapter; simpl.
      split; [literal_trimmed|]. split; literal_trimmed.
  - unfold getChapterData_evaluate; simpl. literal_trimmed.
Qed.

(** ** Image fields *)

(** X12: An image field is never the empty string: an empty [src] counts as
    absent. On a chapter page a non-empty [src] wins over [data-src], and
    without one the image url is the [data-src], if that is non-empty. *)
Theorem image_fields_never_empty (card el : element) (doc : document) (index : nat) :
  SearchResult.image (searchManga_card card) ≠ Some []
  ∧ MangaDetail.image (scrapeMangaDetails_evaluate doc) ≠ Some []
  ∧ Forall (λ image, ChapterImage.imageUrl image ≠ Some [])
      (ChapterData.images (getChapterData_evaluate doc))
  ∧ (∀ src, getAttribute (u "src") el = Some src → src ≠ [] →
       ChapterImage.imageUrl (getChapterData_image index el) = Some src)
  ∧ (or_null (getAttribute (u "src") el) = None →
     ChapterImage.imageUrl (getChapterData_image index el)
     = or_null (getAttribute (u "data-src") el)).
Proof.
  split; [apply or_null_nonempty|]. split; [apply or_null_nonempty|].
  split; [|split].
  - apply Forall_forall. intros image Him.
    apply list_elem_of_lookup in Him as [i Hi].
    rewrite images_lookup in Hi.
    destruct (document_querySelectorAll _ doc !! i) as [e|]; [|done].
    injection Hi as <-. unfold getChapterData_image; simpl.
    destruct (or_null (getAttribute (u "src") e)) as [src|] eqn:Hsrc.
    + rewrite <- Hsrc. apply or_null_nonempty.
    + apply or_null_nonempty.
  - intros src Hsrc Hne. unfold getChapterData_image; simpl. rewrite Hsrc.
    by destruct src.
  - intros Hsrc. unfold getChapterData_image; simpl. by rewrite Hsrc.
Qed.

Lemma image_fields_never_empty_witness :
  ChapterImage.imageUrl
    (getChapterData_image 0
       (Element (u "img") [(u "src", u ""); (u "data-src", u "/p/1.png")] []))
  = Some (u "/p/1.png").
Proof.
  destruct (image_fields_never_empty bare_card
              (Element (u "img") [(u "src", u ""); (u "data-src", u "/p/1.png")] [])
              (page []) 0) as (_ & _ & _ & _ & Hdata).
  exact (Hdata eq_refl).
Defined.

(** ** From a result to the next request *)

(** X13: The [manga_id] of a search card, given to the detail route, leads to
    the title page of that id, and the [next_chapter] of a chapter page,
    given to the read route, leads to the chapter page of that id, the
    latter provided the id is unchanged by [decodeURIComponent]: the read
    route decodes its parameter, the detail route does not. *)
Theorem ids_lead_back `{UriCodec} (env : process_env) (w : engine)
    (card : element) (doc : document) (prefix id : str) :
  browser_launched env w = true →
  newPage_fault w = None → setViewport_fault w = None → setUserAgent_fault w = None →
  no_line_terminator id = true →
  ends_with_slash id = false →
  (occurs (u "title/") prefix = false →
   attribute_of (u "href") (querySelector (u "a") card) = Some (prefix ++ u "title/" ++ id) →
   SearchResult.manga_id (searchManga_card card) = id
   ∧ Goto (u "https://mangadex.org/title/" ++ id) 60000
       ∈ (get_detail env w (SearchResult.manga_id (searchManga_card card))).1)
  ∧ (occurs (u "chapter/") prefix = false →
     attribute_of (u "href") (document_querySelector (u ".next-chapter") doc)
     = Some (prefix ++ u "chapter/" ++ id) →
     decodeURIComponent id = Some id →
     ChapterData.next_chapter (getChapterData_evaluate doc) = Some id
     ∧ Goto (u "https://mangadex.org/chapter/" ++ id) 60000 ∈ (get_read env w id).1).
Proof.
  intros Hl Hp Hv Hu Hlt Hslash. split.
  - intros Hocc Hhref.
    assert (Hid : SearchResult.manga_id (searchManga_card card) = id).
    { unfold searchManga_card; simpl. rewrite Hhref.
      replace (or_else (Some (prefix ++ u "title/" ++ id)) (u "#"))
        with (prefix ++ u "title/" ++ id) by by destruct prefix.
      unfold searchManga_id, title_re.
      change (u "title/") with (u "title" ++ u "/") in *.
      rewrite (str_match_first_segment "title" title_not_before) by done.
      by rewrite chomp_slash_id. }
    split; [done|]. rewrite Hid. unfold get_detail.
    apply elem_of_try_catch.
    eapply elem_of_bind_r; [reflexivity|].
    apply elem_of_bind_l. by apply scrapeMangaDetails_goes.
  - intros Hocc Hhref Hdec. split.
    + unfold getChapterData_evaluate; simpl. rewrite Hhref.
      unfold getChapterData_link.
      replace (or_null (Some (prefix ++ u "chapter/" ++ id)))
        with (Some (prefix ++ u "chapter/" ++ id)) by by destruct prefix.
      unfold chapter_re.
      change (u "chapter/") with (u "chapter" ++ u "/") in *.
      rewrite (str_match_first_segment "chapter" chapter_not_before) by done.
      by rewrite chomp_slash_id.
    + unfold get_read. rewrite Hdec.
      apply elem_of_try_catch.
      eapply elem_of_bind_r; [reflexivity|].
      unfold uri_call. rewrite ret_bind.
      apply elem_of_bind_l. by apply getChapterData_goes.
Qed.

Lemma ids_lead_back_witness :
  SearchResult.manga_id (searchManga_card (link_card (u "/title/abc-1"))) = u "abc-1"
  ∧ Goto (u "https://mangadex.org/title/abc-1") 60000
      ∈ (get_detail development (serving rendered_detail_page)
           (SearchResult.manga_id (searchManga_card (link_card (u "/title/abc-1"))))).1.
Proof.
  destruct (@ids_lead_back ecmascript_uri development (serving rendered_detail_page)
              (link_card (u "/title/abc-1")) (page []) (u "/") (u "abc-1")
              eq_refl eq_refl eq_refl eq_refl eq_refl eq_refl) as [Hs _].
  exact (Hs eq_refl eq_refl).
Defined.
